(** * product_lister: the invoice forms' calculation, navigation and
      amount-to-words core

    Two React pages are embedded here:
    - [GstInvoice]: the tabular invoice page with keyboard navigation
      (per-line discount and GST percentages, advance tax);
    - [SimpleInvoice]: [src/app/page.tsx], the plain invoice with a flat
      per-line discount and the amount-in-words line.

    Amounts are JavaScript numbers.  The calculation code only uses the
    four arithmetic operators, the literals 0, 1 and 100 and the
    truthiness test of [x || 0], so it is written once over an interface
    [JsNumber] and read at two instances: IEEE-754 binary64 (what the
    browser runs) and exact rationals (the arithmetic the formulas
    denote). *)

From Stdlib Require Import List ZArith QArith Qround Lqa Lia Bool.
From Stdlib Require Import String Ascii DecimalString Permutation.
From Stdlib Require Import PrimFloat.
Import ListNotations.

Set Implicit Arguments.

(** ** Numbers *)

Class JsNumber (num : Type) : Type := {
  zero : num;                    (* the literal 0 *)
  one : num;                     (* the literal 1 *)
  hundred : num;                 (* the literal 100 *)
  add : num -> num -> num;       (* a + b *)
  sub : num -> num -> num;       (* a - b *)
  mul : num -> num -> num;       (* a * b *)
  div : num -> num -> num;       (* a / b *)
  toBoolean : num -> bool        (* false exactly on 0, -0 and NaN *)
}.

(** [x || 0] on a number: the left operand when it is truthy. *)
Definition orZero {num} `{JsNumber num} (x : num) : num :=
  if toBoolean x then x else zero.

(** Exact rational arithmetic. *)
#[export] Instance Exact : JsNumber Q := {|
  zero := 0%Q;
  one := 1%Q;
  hundred := 100%Q;
  add := Qplus;
  sub := Qminus;
  mul := Qmult;
  div := Qdiv;
  toBoolean := fun x => negb (Qeq_bool x 0)
|}.

(** IEEE-754 binary64, the run-time representation of a JS number. *)
#[export] Instance Binary64 : JsNumber PrimFloat.float := {|
  zero := PrimFloat.zero;
  one := PrimFloat.one;
  hundred := 100%float;
  add := PrimFloat.add;
  sub := PrimFloat.sub;
  mul := PrimFloat.mul;
  div := PrimFloat.div;
  toBoolean := fun x => negb (PrimFloat.is_zero x || PrimFloat.is_nan x)
|}.

(** ** The tabular GST invoice *)

Module GstInvoice.

Section Calculation.
Context {num : Type} `{JsNumber num}.

(** [interface Item] *)
Record Item : Type := mkItem {
  id : Z;
  code : string;
  desc : string;
  packSize : string;
  batchNo : string;
  qty : num;
  tp : num;
  mrp : num;
  discPercent : num;
  gstPercent : num;
  addGst : num;
  advTax : num
}.

(** [interface CalculatedItem extends Item]: the spread item and the four
    derived amounts. *)
Record CalculatedItem : Type := mkCalculated {
  item : Item;
  grossAmount : num;
  discAmt : num;
  gstAmt : num;
  netAmount : num
}.

(** The taxable base, a local of the [calculatedItems] callback. *)
Definition taxableOf (it : Item) : num :=
  let qty := orZero (qty it) in
  let tp := orZero (tp it) in
  let discPercent := orZero (discPercent it) in
  let grossAmount := mul qty tp in
  let discAmt := div (mul grossAmount discPercent) hundred in
  sub grossAmount discAmt.

(** The callback of [items.map] in [calculatedItems]. *)
Definition calculateItem (it : Item) : CalculatedItem :=
  let qty := orZero (qty it) in
  let tp := orZero (tp it) in
  let discPercent := orZero (discPercent it) in
  let gstPercent := orZero (gstPercent it) in
  let addGst := orZero (addGst it) in
  let advTax := orZero (advTax it) in
  let grossAmount := mul qty tp in
  let discAmt := div (mul grossAmount discPercent) hundred in
  let taxable := sub grossAmount discAmt in
  let gstAmt := div (mul taxable gstPercent) hundred in
  let netAmount := add (add (add taxable gstAmt) addGst) advTax in
  {| item := it;
     grossAmount := grossAmount;
     discAmt := discAmt;
     gstAmt := gstAmt;
     netAmount := netAmount |}.

Definition calculatedItems (items : list Item) : list CalculatedItem :=
  map calculateItem items.

(** The accumulator of [totals]. *)
Record Totals : Type := mkTotals {
  gross : num;
  disc : num;
  gst : num;
  totAddGst : num;
  totAdvTax : num;
  net : num
}.

(** The reducer passed to [calculatedItems.reduce]. *)
Definition totalsStep (acc : Totals) (ci : CalculatedItem) : Totals :=
  {| gross := add (gross acc) (grossAmount ci);
     disc := add (disc acc) (discAmt ci);
     gst := add (gst acc) (gstAmt ci);
     totAddGst := add (totAddGst acc) (orZero (addGst (item ci)));
     totAdvTax := add (totAdvTax acc) (orZero (advTax (item ci)));
     net := add (net acc) (netAmount ci) |}.

Definition totalsInit : Totals :=
  {| gross := zero; disc := zero; gst := zero;
     totAddGst := zero; totAdvTax := zero; net := zero |}.

Definition totals (cis : list CalculatedItem) : Totals :=
  fold_left totalsStep cis totalsInit.

End Calculation.

Arguments Item num : clear implicits.
Arguments CalculatedItem num : clear implicits.
Arguments Totals num : clear implicits.

(** *** Keyboard navigation and row management *)

Section Navigator.
Context {num : Type} `{JsNumber num}.

(** The object literal that [useState], [addItem] and [removeItem] all
    write out: a blank row with quantity 1. *)
Definition blankItem (newId : Z) : Item num :=
  {| id := newId; code := ""; desc := ""; packSize := ""; batchNo := "";
     qty := one; tp := zero; mrp := zero; discPercent := zero;
     gstPercent := zero; addGst := zero; advTax := zero |}.

(** [interface FocusPosition] *)
Record FocusPosition : Type := mkFocus {
  rowId : Z;
  field : string
}.

(** The local [fields] of [handleKeyDown]: the tab order of a row. *)
Definition fields : list string :=
  ["code"; "desc"; "packSize"; "batchNo"; "qty"; "tp"; "mrp";
   "discPercent"; "gstPercent"; "addGst"; "advTax"]%string.

(** The [field] props of the [TableInput] cells a row renders.  Only
    these cells have an input element that can receive key and focus
    events (there is no cell for [addGst]). *)
Definition renderedFields : list string :=
  ["code"; "desc"; "packSize"; "batchNo"; "qty"; "tp"; "mrp";
   "discPercent"; "gstPercent"; "advTax"]%string.

(** A callback handed to [setTimeout(..., 0)].  [addItem] captures the
    id it computed; [removeItem] captures the filtered array and reads
    [newItems[0].id] only when the callback runs. *)
Inductive Timer : Type :=
| FocusNew (newId : Z)
| FocusFirst (newItems : list (Item num)).

(** The component state: the two [useState] cells and the timer queue. *)
Record State : Type := mkState {
  items : list (Item num);
  focusPosition : FocusPosition;
  timers : list Timer
}.

Definition setFocusPosition (p : FocusPosition) (s : State) : State :=
  {| items := items s; focusPosition := p; timers := timers s |}.

(** [useState] initial values. *)
Definition initialState : State :=
  {| items := [blankItem 1];
     focusPosition := {| rowId := 1; field := "code" |};
     timers := [] |}.

(** [Array.prototype.indexOf] / [findIndex]: first match, or -1. *)
Fixpoint findIndexFrom {A} (p : A -> bool) (i : Z) (l : list A) : Z :=
  match l with
  | [] => -1
  | x :: r => if p x then i else findIndexFrom p (i + 1) r
  end.

Definition findIndex {A} (p : A -> bool) (l : list A) : Z :=
  findIndexFrom p 0 l.

Definition indexOf (f : string) (l : list string) : Z :=
  findIndex (String.eqb f) l.

(** [a[i]] for a number [i]: [None] is [undefined]. *)
Definition at_ {A} (l : list A) (i : Z) : option A :=
  if (i <? 0)%Z then None else nth_error l (Z.to_nat i).

Definition len {A} (l : list A) : Z := Z.of_nat (List.length l).

(** [ids.length > 0 ? Math.max(...ids) : 0] *)
Definition maxId (ids : list Z) : Z :=
  match ids with
  | [] => 0
  | x :: r => fold_left Z.max r x
  end.

Definition addItem (s : State) : State :=
  let ids := map (@id num) (items s) in
  let newId := (maxId ids + 1)%Z in
  {| items := items s ++ [blankItem newId];
     focusPosition := focusPosition s;
     timers := timers s ++ [FocusNew newId] |}.

Definition removeItem (rid : Z) (s : State) : State :=
  if (len (items s) <=? 1)%Z then
    {| items := [blankItem 1];
       focusPosition := {| rowId := 1; field := "code" |};
       timers := timers s |}
  else
    let newItems := filter (fun it => negb (id it =? rid)%Z) (items s) in
    {| items := newItems;
       focusPosition := focusPosition s;
       timers := timers s ++
                 (if (rowId (focusPosition s) =? rid)%Z
                  then [FocusFirst newItems] else []) |}.

Definition handleFieldFocus (r : Z) (f : string) (s : State) : State :=
  if negb (rowId (focusPosition s) =? r)%Z
     || negb (String.eqb (field (focusPosition s)) f)
  then setFocusPosition {| rowId := r; field := f |} s
  else s.

(** [handleKeyDown(e, rowId, field)] with [key = e.key].  An array read
    that yields [undefined] cannot happen under the guards; the state is
    then left as it is. *)
Definition handleKeyDown (key : string) (r : Z) (f : string) (s : State)
  : State :=
  let currentIndex := indexOf f fields in
  if String.eqb key "Enter" || String.eqb key "Tab" then
    if (currentIndex <? len fields - 1)%Z then
      match at_ fields (currentIndex + 1) with
      | Some next => setFocusPosition {| rowId := r; field := next |} s
      | None => s
      end
    else
      let currentRowIndex := findIndex (fun it => (id it =? r)%Z) (items s) in
      if (currentRowIndex <? len (items s) - 1)%Z then
        match at_ (items s) (currentRowIndex + 1) with
        | Some nextRow =>
            setFocusPosition {| rowId := id nextRow; field := "code" |} s
        | None => s
        end
      else addItem s
  else if String.eqb key "ArrowUp" || String.eqb key "ArrowDown" then
    let direction := if String.eqb key "ArrowDown" then 1%Z else (-1)%Z in
    let currentRowIndex := findIndex (fun it => (id it =? r)%Z) (items s) in
    let newRowIndex := (currentRowIndex + direction)%Z in
    if (0 <=? newRowIndex)%Z && (newRowIndex <? len (items s))%Z then
      match at_ (items s) newRowIndex with
      | Some newRow =>
          setFocusPosition {| rowId := id newRow; field := f |} s
      | None => s
      end
    else s
  else s.

(** Running one expired timer callback.  [newItems[0].id] on an empty
    array throws inside the callback, which leaves the state alone. *)
Definition runTimer (fp : FocusPosition) (t : Timer) : FocusPosition :=
  match t with
  | FocusNew newId => {| rowId := newId; field := "code" |}
  | FocusFirst (first :: _) => {| rowId := id first; field := "code" |}
  | FocusFirst [] => fp
  end.

(** The zero-delay timers run, in order, once the handler has returned. *)
Definition flushTimers (s : State) : State :=
  {| items := items s;
     focusPosition := fold_left runTimer (timers s) (focusPosition s);
     timers := [] |}.

(** What the operator can do to the grid. *)
Inductive Event : Type :=
| KeyDown (key : string) (r : Z) (f : string)   (* onKeyDown of a cell *)
| FieldFocus (r : Z) (f : string)               (* onFocus of a cell *)
| ClickAdd                                      (* the Add Product button *)
| ClickRemove (rid : Z).                        (* a row's remove button *)

(** The handler an event is wired to. *)
Definition handle (e : Event) (s : State) : State :=
  match e with
  | KeyDown key r f => handleKeyDown key r f s
  | FieldFocus r f => handleFieldFocus r f s
  | ClickAdd => addItem s
  | ClickRemove rid => removeItem rid s
  end.

(** One operation: the handler, then the timers it scheduled. *)
Definition run (e : Event) (s : State) : State :=
  flushTimers (handle e s).

Definition runAll (es : list Event) (s : State) : State :=
  fold_left (fun st e => run e st) es s.

Definition ids (s : State) : list Z := map (@id num) (items s).

Definition hasRow (r : Z) (s : State) : bool :=
  existsb (Z.eqb r) (ids s).

(** An event can only come from an element that is on the page: a cell
    of an existing row, or the remove button of an existing row. *)
Definition enabled (e : Event) (s : State) : bool :=
  match e with
  | KeyDown _ r f | FieldFocus r f =>
      hasRow r s && existsb (String.eqb f) renderedFields
  | ClickAdd => true
  | ClickRemove rid => hasRow rid s
  end.

(** The states a session can be in between two operations. *)
Inductive reachable : State -> Prop :=
| reachable_init : reachable initialState
| reachable_run e s :
    reachable s -> enabled e s = true -> reachable (run e s).

End Navigator.

Arguments State num : clear implicits.
Arguments Timer num : clear implicits.

End GstInvoice.

(** ** The plain invoice, [src/app/page.tsx] *)

Module SimpleInvoice.

Section Calculation.
Context {num : Type} `{JsNumber num}.

(** [interface Item] *)
Record Item : Type := mkItem {
  id : Z;
  desc : string;
  qty : num;
  price : num;
  discount : num;
  gstPercent : num
}.

(** The object [{ ...item, amount, netAmount }]. *)
Record CalculatedItem : Type := mkCalculated {
  item : Item;
  amount : num;
  netAmount : num
}.

Definition calculateItem (it : Item) : CalculatedItem :=
  let amount := mul (qty it) (price it) in
  let netAmount := sub amount (discount it) in
  {| item := it; amount := amount; netAmount := netAmount |}.

Definition calculatedItems (items : list Item) : list CalculatedItem :=
  map calculateItem items.

Record Totals : Type := mkTotals {
  subTotal : num;
  totDiscount : num;
  total : num
}.

Definition totalsStep (acc : Totals) (ci : CalculatedItem) : Totals :=
  {| subTotal := add (subTotal acc) (amount ci);
     totDiscount := add (totDiscount acc) (discount (item ci));
     total := add (total acc) (netAmount ci) |}.

Definition totalsInit : Totals :=
  {| subTotal := zero; totDiscount := zero; total := zero |}.

Definition totals (cis : list CalculatedItem) : Totals :=
  fold_left totalsStep cis totalsInit.

(** [Math.max(...items.map(i => i.id), 0) + 1] and the appended row. *)
Definition addItem (items : list Item) : list Item :=
  let newId := (fold_left Z.max (map id items) 0 + 1)%Z in
  items ++ [{| id := newId; desc := ""; qty := one; price := zero;
               discount := zero; gstPercent := zero |}].

Definition removeItem (rid : Z) (items : list Item) : list Item :=
  filter (fun i => negb (id i =? rid)%Z) items.

End Calculation.

Arguments Item num : clear implicits.
Arguments CalculatedItem num : clear implicits.
Arguments Totals num : clear implicits.

(** *** Amount in words

    [amountInWords] takes the invoice total; it is read here on exact
    rationals, where [Math.floor], [%] and [Math.round] are the
    mathematical floor, truncated remainder and round-half-up. *)

Definition words : list string :=
  [""; "One"; "Two"; "Three"; "Four"; "Five"; "Six"; "Seven"; "Eight";
   "Nine"; "Ten"; "Eleven"; "Twelve"; "Thirteen"; "Fourteen"; "Fifteen";
   "Sixteen"; "Seventeen"; "Eighteen"; "Nineteen"]%string.

Definition tens : list string :=
  [""; ""; "Twenty"; "Thirty"; "Forty"; "Fifty"; "Sixty"; "Seventy";
   "Eighty"; "Ninety"]%string.

(** [a[i]] with [undefined] as [None]. *)
Definition at_ (l : list string) (i : Z) : option string :=
  if (i <? 0)%Z then None else nth_error l (Z.to_nat i).

(** An array element inside a template literal. *)
Definition interpolate (o : option string) : string :=
  match o with
  | Some w => w
  | None => "undefined"
  end.

(** [Math.trunc] and the [%] operator (sign of the dividend). *)
Definition Qtrunc (x : Q) : Z := Z.quot (Qnum x) (Zpos (Qden x)).

Definition jsRem (a m : Q) : Q :=
  (a - m * inject_Z (Qtrunc (a / m)))%Q.

(** [Math.round]: nearest integer, halves towards plus infinity. *)
Definition mathRound (x : Q) : Z := Qfloor (x + (1 # 2))%Q.

(** [`${tens[Math.floor(n / 10)]} ${words[n % 10]}`] *)
Definition tensAndUnit (n : Z) : string :=
  (interpolate (at_ tens (n / 10)) ++ " "
   ++ interpolate (at_ words (Z.rem n 10)))%string.

(** [words[n] || `...`]: the word when there is a non-empty one. *)
Definition group (n : Z) : string :=
  match at_ words n with
  | Some w => if String.eqb w "" then tensAndUnit n else w
  | None => tensAndUnit n
  end.

Definition numberToString (n : Z) : string :=
  NilZero.string_of_int (Z.to_int n).

Definition amountInWords (amount : Q) : string :=
  if Qeq_bool amount 0 then "Zero Rupees Only"%string
  else
    let result := "Rupees "%string in
    let crores := Qfloor (amount / 10000000)%Q in
    let lakhs := Qfloor (jsRem amount 10000000 / 100000)%Q in
    let thousands := Qfloor (jsRem amount 100000 / 1000)%Q in
    let hundreds := Qfloor (jsRem amount 1000 / 100)%Q in
    let tensAndOnes := Qfloor (jsRem amount 100%Q) in
    let result :=
      if (0 <? crores)%Z
      then (result ++ group crores ++ " Crore ")%string else result in
    let result :=
      if (0 <? lakhs)%Z
      then (result ++ group lakhs ++ " Lakh ")%string else result in
    let result :=
      if (0 <? thousands)%Z
      then (result ++ group thousands ++ " Thousand ")%string else result in
    let result :=
      if (0 <? hundreds)%Z
      then (result ++ interpolate (at_ words hundreds) ++ " Hundred ")%string
      else result in
    let result :=
      if (0 <? tensAndOnes)%Z then
        if (tensAndOnes <? 20)%Z
        then (result ++ interpolate (at_ words tensAndOnes) ++ " ")%string
        else (result ++ tensAndUnit tensAndOnes ++ " ")%string
      else result in
    let paisa := mathRound ((amount - inject_Z (Qfloor amount)) * 100)%Q in
    let result :=
      if (0 <? paisa)%Z
      then (result ++ "and " ++ numberToString paisa ++ "/100")%string
      else result in
    (result ++ " Only")%string.

End SimpleInvoice.

(** ** Cell edits and the printed bill amount of the tabular form *)

Module GstEditing.
Import GstInvoice.

Section Editing.
Context {num : Type} `{JsNumber num}.

(** The text cells and the number cells of a row: the [field] argument
    of the ten [handleItemChange] calls in the table body. *)
Inductive TextField : Type := FCode | FDesc | FPackSize | FBatchNo.

Inductive NumberField : Type :=
  FQty | FTp | FMrp | FDiscPercent | FGstPercent | FAdvTax.

(** The [(field, value)] pair a cell's [onChange] passes on: the text as
    typed, or the number [parseFloat(v) || 0]. *)
Inductive Change : Type :=
| SetText (f : TextField) (v : string)
| SetNumber (f : NumberField) (v : num).

(** [{ ...item, [field]: value }] *)
Definition applyChange (c : Change) (it : Item num) : Item num :=
  match c with
  | SetText FCode v =>
      mkItem (id it) v (desc it) (packSize it) (batchNo it) (qty it) (tp it)
        (mrp it) (discPercent it) (gstPercent it) (addGst it) (advTax it)
  | SetText FDesc v =>
      mkItem (id it) (code it) v (packSize it) (batchNo it) (qty it) (tp it)
        (mrp it) (discPercent it) (gstPercent it) (addGst it) (advTax it)
  | SetText FPackSize v =>
      mkItem (id it) (code it) (desc it) v (batchNo it) (qty it) (tp it)
        (mrp it) (discPercent it) (gstPercent it) (addGst it) (advTax it)
  | SetText FBatchNo v =>
      mkItem (id it) (code it) (desc it) (packSize it) v (qty it) (tp it)
        (mrp it) (discPercent it) (gstPercent it) (addGst it) (advTax it)
  | SetNumber FQty v =>
      mkItem (id it) (code it) (desc it) (packSize it) (batchNo it) v (tp it)
        (mrp it) (discPercent it) (gstPercent it) (addGst it) (advTax it)
  | SetNumber FTp v =>
      mkItem (id it) (code it) (desc it) (packSize it) (batchNo it) (qty it) v
        (mrp it) (discPercent it) (gstPercent it) (addGst it) (advTax it)
  | SetNumber FMrp v =>
      mkItem (id it) (code it) (desc it) (packSize it) (batchNo it) (qty it)
        (tp it) v (discPercent it) (gstPercent it) (addGst it) (advTax it)
  | SetNumber FDiscPercent v =>
      mkItem (id it) (code it) (desc it) (packSize it) (batchNo it) (qty it)
        (tp it) (mrp it) v (gstPercent it) (addGst it) (advTax it)
  | SetNumber FGstPercent v =>
      mkItem (id it) (code it) (desc it) (packSize it) (batchNo it) (qty it)
        (tp it) (mrp it) (discPercent it) v (addGst it) (advTax it)
  | SetNumber FAdvTax v =>
      mkItem (id it) (code it) (desc it) (packSize it) (batchNo it) (qty it)
        (tp it) (mrp it) (discPercent it) (gstPercent it) (addGst it) v
  end.

(** [handleItemChange(id, field, value)] *)
Definition handleItemChange (rid : Z) (c : Change) (s : State num)
  : State num :=
  {| items := map (fun it => if (id it =? rid)%Z then applyChange c it else it)
                  (items s);
     focusPosition := focusPosition s;
     timers := timers s |}.

(** A session in which the operator also types into cells. *)
Inductive Action : Type :=
| Ui (e : Event)
| Edit (rid : Z) (c : Change).

Definition act (a : Action) (s : State num) : State num :=
  match a with
  | Ui e => run e s
  | Edit rid c => handleItemChange rid c s
  end.

(** A cell can be typed into when its row is on the page. *)
Definition actionEnabled (a : Action) (s : State num) : bool :=
  match a with
  | Ui e => enabled e s
  | Edit rid _ => hasRow rid s
  end.

Definition actAll (acts : list Action) (s : State num) : State num :=
  fold_left (fun st a => act a st) acts s.

Fixpoint allActionsEnabled (acts : list Action) (s : State num) : bool :=
  match acts with
  | [] => true
  | a :: rest => actionEnabled a s && allActionsEnabled rest (act a s)
  end.

(** Two changes address the same cell of a row. *)
Definition sameCell (c1 c2 : Change) : bool :=
  match c1, c2 with
  | SetText FCode _, SetText FCode _
  | SetText FDesc _, SetText FDesc _
  | SetText FPackSize _, SetText FPackSize _
  | SetText FBatchNo _, SetText FBatchNo _
  | SetNumber FQty _, SetNumber FQty _
  | SetNumber FTp _, SetNumber FTp _
  | SetNumber FMrp _, SetNumber FMrp _
  | SetNumber FDiscPercent _, SetNumber FDiscPercent _
  | SetNumber FGstPercent _, SetNumber FGstPercent _
  | SetNumber FAdvTax _, SetNumber FAdvTax _ => true
  | _, _ => false
  end.

(** The cells [calculatedItems] reads: every number cell but [mrp]. *)
Definition feedsAmounts (c : Change) : bool :=
  match c with
  | SetText _ _ => false
  | SetNumber FMrp _ => false
  | SetNumber _ _ => true
  end.

(** *** Handlers and timers one at a time

    [run] lets the timers a handler scheduled expire before anything else
    happens.  On the page a second handler can also run first; the steps
    below take handlers and timer callbacks one at a time. *)

(** The oldest pending timer callback runs. *)
Definition expire (s : State num) : State num :=
  match timers s with
  | [] => s
  | t :: rest =>
      {| items := items s;
         focusPosition := runTimer (focusPosition s) t;
         timers := rest |}
  end.

(** A handler runs to its return; the timers it sets stay pending. *)
Definition handleAction (a : Action) (s : State num) : State num :=
  match a with
  | Ui e => handle e s
  | Edit rid c => handleItemChange rid c s
  end.

Inductive Step : Type :=
| Handle (a : Action)
| Expire.

Definition step (st : Step) (s : State num) : State num :=
  match st with
  | Handle a => handleAction a s
  | Expire => expire s
  end.

Definition stepEnabled (st : Step) (s : State num) : bool :=
  match st with
  | Handle a => actionEnabled a s
  | Expire => true
  end.

Definition stepAll (sts : list Step) (s : State num) : State num :=
  fold_left (fun st x => step x st) sts s.

Fixpoint allStepsEnabled (sts : list Step) (s : State num) : bool :=
  match sts with
  | [] => true
  | x :: rest => stepEnabled x s && allStepsEnabled rest (step x s)
  end.

(** What holds of the grid at every step, timers pending or not. *)
Definition wellFormedGrid (s : State num) : Prop :=
  NoDup (ids s) /\
  Forall (fun i => 0 < i)%Z (ids s) /\
  items s <> [] /\
  In (field (focusPosition s)) fields.

(** *** The cell that has the keyboard

    A key press goes to the input element that has the DOM focus; each
    [TableInput] passes its own [rowId] and [field] to [handleKeyDown].
    The effect on [focusPosition] moves the DOM focus to the input
    registered under [`${rowId}-${field}`], when there is one. *)

Record Page : Type := mkPage {
  state : State num;
  active : option FocusPosition      (* the cell holding the DOM focus *)
}.

(** [inputRefs.current[refKey]] is set: the row is on the page and the
    field has a [TableInput]. *)
Definition hasInput (p : FocusPosition) (s : State num) : bool :=
  hasRow (rowId p) s && existsb (String.eqb (field p)) renderedFields.

(** The [useEffect] on [focusPosition]: focus the registered input;
    without one the DOM focus stays where it is, as long as that element
    is still on the page. *)
Definition focusEffect (s : State num) (act0 : option FocusPosition)
  : option FocusPosition :=
  if hasInput (focusPosition s) s then Some (focusPosition s)
  else
    match act0 with
    | Some c => if hasRow (rowId c) s then Some c else None
    | None => None
    end.

(** Enter or Tab pressed on the page: [onKeyDown] of the active cell,
    the timers the handler set, and then the effect (every branch of the
    handler for these keys ends in a [setFocusPosition]). *)
Definition pressAdvance (key : string) (pg : Page) : Page :=
  match active pg with
  | Some c =>
      let s' := run (KeyDown key (rowId c) (field c)) (state pg) in
      {| state := s'; active := focusEffect s' (active pg) |}
  | None => pg
  end.

Fixpoint pressAdvanceTimes (n : nat) (key : string) (pg : Page) : Page :=
  match n with
  | O => pg
  | S k => pressAdvanceTimes k key (pressAdvance key pg)
  end.

End Editing.

Arguments Change num : clear implicits.
Arguments Action num : clear implicits.
Arguments Step num : clear implicits.
Arguments Page num : clear implicits.

(** The footer's [Math.round(totals.net)], on exact amounts. *)
Definition billAmount (t : Totals Q) : Z := SimpleInvoice.mathRound (net t).

(** The net total written out from the other totals. *)
Definition balanced (t : Totals Q) : Prop :=
  (net t == gross t - disc t + gst t + totAddGst t + totAdvTax t)%Q.

(** A row with non-negative inputs and a discount of at most 100%. *)
Definition sensibleRow (it : Item Q) : Prop :=
  (0 <= qty it /\ 0 <= tp it /\
   0 <= discPercent it /\ discPercent it <= 100 /\
   0 <= gstPercent it /\ 0 <= addGst it /\ 0 <= advTax it)%Q.

End GstEditing.

(** ** The parts of an amount phrase *)

Module AmountParts.
Import SimpleInvoice.

(** The locals of [amountInWords]. *)
Definition croresOf (amount : Q) : Z := Qfloor (amount / 10000000)%Q.
Definition lakhsOf (amount : Q) : Z :=
  Qfloor (jsRem amount 10000000 / 100000)%Q.
Definition thousandsOf (amount : Q) : Z :=
  Qfloor (jsRem amount 100000 / 1000)%Q.
Definition hundredsOf (amount : Q) : Z :=
  Qfloor (jsRem amount 1000 / 100)%Q.
Definition tensAndOnesOf (amount : Q) : Z := Qfloor (jsRem amount 100%Q).
Definition paisaOf (amount : Q) : Z :=
  mathRound ((amount - inject_Z (Qfloor amount)) * 100)%Q.

(** What each [if] of [amountInWords] appends to [result]. *)
Definition magnitudePart (n : Z) (unit : string) : string :=
  if (0 <? n)%Z then (group n ++ unit)%string else ""%string.

Definition hundredsPart (n : Z) : string :=
  if (0 <? n)%Z then (interpolate (at_ words n) ++ " Hundred ")%string
  else ""%string.

Definition tensAndOnesPart (n : Z) : string :=
  if (0 <? n)%Z then
    if (n <? 20)%Z then (interpolate (at_ words n) ++ " ")%string
    else (tensAndUnit n ++ " ")%string
  else ""%string.

Definition paisaPart (n : Z) : string :=
  if (0 <? n)%Z then ("and " ++ numberToString n ++ "/100")%string
  else ""%string.

(** The magnitude words of a phrase: everything between the leading
    [Rupees] and the paisa part. *)
Definition magnitudeWords (amount : Q) : string :=
  (magnitudePart (croresOf amount) " Crore "
   ++ magnitudePart (lakhsOf amount) " Lakh "
   ++ magnitudePart (thousandsOf amount) " Thousand "
   ++ hundredsPart (hundredsOf amount)
   ++ tensAndOnesPart (tensAndOnesOf amount))%string.

(** The two-digit values a lakh or thousand group can take. *)
Definition twoDigits : list Z := map Z.of_nat (seq 1 99).

End AmountParts.

(** ** Vocabulary of the statements *)

Section Vocabulary.
Context {num : Type} `{JsNumber num}.

(** The sum of a sequence, added left to right starting from 0. *)
Definition sumOf (xs : list num) : num := fold_left add xs zero.

(** An item with one numeric field replaced. *)
Definition withQty (q : num) (it : GstInvoice.Item num) : GstInvoice.Item num :=
  GstInvoice.mkItem (GstInvoice.id it) (GstInvoice.code it)
    (GstInvoice.desc it) (GstInvoice.packSize it) (GstInvoice.batchNo it)
    q (GstInvoice.tp it) (GstInvoice.mrp it) (GstInvoice.discPercent it)
    (GstInvoice.gstPercent it) (GstInvoice.addGst it) (GstInvoice.advTax it).

Definition withTp (p : num) (it : GstInvoice.Item num) : GstInvoice.Item num :=
  GstInvoice.mkItem (GstInvoice.id it) (GstInvoice.code it)
    (GstInvoice.desc it) (GstInvoice.packSize it) (GstInvoice.batchNo it)
    (GstInvoice.qty it) p (GstInvoice.mrp it) (GstInvoice.discPercent it)
    (GstInvoice.gstPercent it) (GstInvoice.addGst it) (GstInvoice.advTax it).

(** Two items that agree on every field except possibly [mrp]. *)
Definition sameButMrp (a b : GstInvoice.Item num) : Prop :=
  GstInvoice.id a = GstInvoice.id b /\
  GstInvoice.code a = GstInvoice.code b /\
  GstInvoice.desc a = GstInvoice.desc b /\
  GstInvoice.packSize a = GstInvoice.packSize b /\
  GstInvoice.batchNo a = GstInvoice.batchNo b /\
  GstInvoice.qty a = GstInvoice.qty b /\
  GstInvoice.tp a = GstInvoice.tp b /\
  GstInvoice.discPercent a = GstInvoice.discPercent b /\
  GstInvoice.gstPercent a = GstInvoice.gstPercent b /\
  GstInvoice.addGst a = GstInvoice.addGst b /\
  GstInvoice.advTax a = GstInvoice.advTax b.

End Vocabulary.

Section SessionVocabulary.
Context {num : Type} `{JsNumber num}.

(** Every event of the sequence comes from an element that is on the
    page when it happens. *)
Fixpoint allEnabled (es : list GstInvoice.Event) (s : GstInvoice.State num)
  : bool :=
  match es with
  | [] => true
  | e :: rest =>
      GstInvoice.enabled e s && allEnabled rest (GstInvoice.run e s)
  end.

(** What holds of the grid between two operations: distinct positive row
    ids, a focus position on an existing row and a field of the tab
    order, and no timer left to run. *)
Definition settled (s : GstInvoice.State num) : Prop :=
  NoDup (GstInvoice.ids s) /\
  Forall (fun i => 0 < i)%Z (GstInvoice.ids s) /\
  In (GstInvoice.rowId (GstInvoice.focusPosition s)) (GstInvoice.ids s) /\
  In (GstInvoice.field (GstInvoice.focusPosition s)) GstInvoice.fields /\
  GstInvoice.timers s = [].

(** The sessions of the plain form: rows are added, removed, or cleared
    all at once, starting from the empty list. *)
Inductive simpleReachable : list (SimpleInvoice.Item num) -> Prop :=
| simple_init : simpleReachable []
| simple_add l : simpleReachable l -> simpleReachable (SimpleInvoice.addItem l)
| simple_remove rid l :
    simpleReachable l -> simpleReachable (SimpleInvoice.removeItem rid l)
| simple_clear l : simpleReachable l -> simpleReachable [].

End SessionVocabulary.

(** [s] contains [sub] as a contiguous substring. *)
Definition contains (sub s : string) : Prop :=
  exists pre post, s = (pre ++ sub ++ post)%string.

(** A row of the tabular form with the given numeric inputs. *)
Definition gstRow {num} (q p m d g a t : num) : GstInvoice.Item num :=
  GstInvoice.mkItem 1 "" "" "" "" q p m d g a t.

(** A row of the plain form. *)
Definition simpleRow {num} (q p d g : num) : SimpleInvoice.Item num :=
  SimpleInvoice.mkItem 1 "" q p d g.

(** Three rows of one unit each, priced 0.10, 0.20 and 0.30. *)
#[warnings="-inexact-float"] Definition dimeRows : list (GstInvoice.Item float) :=
  [gstRow 1 0.1 0 0 0 0 0; gstRow 1 0.2 0 0 0 0 0;
   gstRow 1 0.3 0 0 0 0 0]%float.

(** A row priced 0.001 and discounted by 100 percent. *)
#[warnings="-inexact-float"] Definition freeRow (q : float) : GstInvoice.Item float :=
  (gstRow q 0.001 0 100 0 0 0)%float.

(** A grid to try the statements on: three rows, two of them typed
    into, focus on the third. *)
Definition typedRow1 : GstInvoice.Item Q :=
  GstEditing.applyChange (GstEditing.SetText GstEditing.FCode "P-17")
    (GstInvoice.blankItem 1).

Definition typedRow2 : GstInvoice.Item Q :=
  GstEditing.applyChange (GstEditing.SetNumber GstEditing.FTp 40%Q)
    (GstInvoice.blankItem 2).

Definition typedGrid : GstInvoice.State Q :=
  GstEditing.handleItemChange 2 (GstEditing.SetNumber GstEditing.FTp 40%Q)
    (GstEditing.handleItemChange 1
       (GstEditing.SetText GstEditing.FCode "P-17")
       (GstInvoice.run GstInvoice.ClickAdd
          (GstInvoice.run GstInvoice.ClickAdd
             (@GstInvoice.initialState Q Exact)))).

(** Closed facts about concrete inputs are settled by evaluation. *)
Ltac evaluate := cbn zeta; repeat split; vm_compute; reflexivity.

(** * Line-item calculation and totals *)

Module CalculationFacts.
Import GstInvoice.

Section AnyArithmetic.
Context {num : Type} `{JsNumber num}.

Lemma totals_fold_fields (cis : list (CalculatedItem num)) (acc : Totals num) :
  fold_left totalsStep cis acc =
  {| gross := fold_left add (map (@grossAmount num) cis) (gross acc);
     disc := fold_left add (map (@discAmt num) cis) (disc acc);
     gst := fold_left add (map (@gstAmt num) cis) (gst acc);
     totAddGst :=
       fold_left add (map (fun ci => orZero (addGst (item ci))) cis)
         (totAddGst acc);
     totAdvTax :=
       fold_left add (map (fun ci => orZero (advTax (item ci))) cis)
         (totAdvTax acc);
     net := fold_left add (map (@netAmount num) cis) (net acc) |}.
Proof.
  revert acc.
  induction cis as [|ci cis IH]; intros acc.
  - destruct acc; reflexivity.
  - cbn [fold_left map]. rewrite IH. reflexivity.
Qed.

Lemma simple_totals_fold_fields (cis : list (SimpleInvoice.CalculatedItem num))
      (acc : SimpleInvoice.Totals num) :
  fold_left SimpleInvoice.totalsStep cis acc =
  {| SimpleInvoice.subTotal :=
       fold_left add (map (@SimpleInvoice.amount num) cis)
         (SimpleInvoice.subTotal acc);
     SimpleInvoice.totDiscount :=
       fold_left add
         (map (fun ci => SimpleInvoice.discount (SimpleInvoice.item ci)) cis)
         (SimpleInvoice.totDiscount acc);
     SimpleInvoice.total :=
       fold_left add (map (@SimpleInvoice.netAmount num) cis)
         (SimpleInvoice.total acc) |}.
Proof.
  revert acc.
  induction cis as [|ci cis IH]; intros acc.
  - destruct acc; reflexivity.
  - cbn [fold_left map]. rewrite IH. reflexivity.
Qed.

End AnyArithmetic.

Local Open Scope float_scope.

(** C1 (amended).  In the tabular GST form the derived fields follow the
    stated formulas on the inputs coerced by [Number(x) || 0], whatever
    the arithmetic, and the row quantity 2, unit price 100, discount 10%,
    GST 5% gives 200, 20, 180, 9 and 189 (in binary64 and exactly).  In
    the plain form, the amount is quantity times price and the net amount
    is the amount minus the flat discount. *)
Theorem calculated_fields_by_form :
  (forall num (N : JsNumber num) (it : Item num),
      let ci := calculateItem it in
      grossAmount ci = mul (orZero (qty it)) (orZero (tp it)) /\
      discAmt ci =
        div (mul (grossAmount ci) (orZero (discPercent it))) hundred /\
      taxableOf it = sub (grossAmount ci) (discAmt ci) /\
      gstAmt ci = div (mul (taxableOf it) (orZero (gstPercent it))) hundred /\
      netAmount ci =
        add (add (add (taxableOf it) (gstAmt ci)) (orZero (addGst it)))
          (orZero (advTax it))) /\
  (let it := gstRow 2 100 0 10 5 0 0 in
   let ci := calculateItem it in
   grossAmount ci = 200 /\ discAmt ci = 20 /\ taxableOf it = 180 /\
   gstAmt ci = 9 /\ netAmount ci = 189) /\
  (let it := gstRow 2 100 0 10 5 0 0 in
   let ci := calculateItem it in
   grossAmount ci == 200 /\ discAmt ci == 20 /\ taxableOf it == 180 /\
   gstAmt ci == 9 /\ netAmount ci == 189)%Q /\
  (forall num (N : JsNumber num) (it : SimpleInvoice.Item num),
      let ci := SimpleInvoice.calculateItem it in
      SimpleInvoice.amount ci =
        mul (SimpleInvoice.qty it) (SimpleInvoice.price it) /\
      SimpleInvoice.netAmount ci =
        sub (SimpleInvoice.amount ci) (SimpleInvoice.discount it)).
Proof.
  split; [|split; [|split]].
  - intros num N it. cbn. repeat split; reflexivity.
  - cbn zeta. repeat split; vm_compute; reflexivity.
  - cbn zeta. repeat split; vm_compute; reflexivity.
  - intros num N it. cbn. split; reflexivity.
Qed.

(** C1, as stated, fails on the plain form: the same inputs give a net
    amount of 190 there, not 189. *)
Lemma simple_form_net_is_190 :
  let ci := SimpleInvoice.calculateItem (simpleRow 2 100 10 5) in
  SimpleInvoice.amount ci = 200 /\
  SimpleInvoice.netAmount ci = 190 /\
  PrimFloat.eqb (SimpleInvoice.netAmount ci) 189 = false.
Proof. evaluate. Qed.

(** C5.  The totals are the field-wise left-to-right sums of the computed
    items' gross, discount, GST, additional GST, advance tax and net
    amounts, in any arithmetic, and the empty sequence gives all zeros.
    The plain form likewise sums the three amounts it has. *)
Theorem totals_are_fieldwise_sums :
  forall num (N : JsNumber num),
    (forall cis : list (CalculatedItem num),
        totals cis =
        {| gross := sumOf (map (@grossAmount num) cis);
           disc := sumOf (map (@discAmt num) cis);
           gst := sumOf (map (@gstAmt num) cis);
           totAddGst := sumOf (map (fun ci => orZero (addGst (item ci))) cis);
           totAdvTax := sumOf (map (fun ci => orZero (advTax (item ci))) cis);
           net := sumOf (map (@netAmount num) cis) |}) /\
    totals (@nil (CalculatedItem num)) =
    {| gross := zero; disc := zero; gst := zero;
       totAddGst := zero; totAdvTax := zero; net := zero |} /\
    (forall cis : list (SimpleInvoice.CalculatedItem num),
        SimpleInvoice.totals cis =
        {| SimpleInvoice.subTotal :=
             sumOf (map (@SimpleInvoice.amount num) cis);
           SimpleInvoice.totDiscount :=
             sumOf (map (fun ci =>
                           SimpleInvoice.discount (SimpleInvoice.item ci)) cis);
           SimpleInvoice.total :=
             sumOf (map (@SimpleInvoice.netAmount num) cis) |}) /\
    SimpleInvoice.totals (@nil (SimpleInvoice.CalculatedItem num)) =
    {| SimpleInvoice.subTotal := zero;
       SimpleInvoice.totDiscount := zero;
       SimpleInvoice.total := zero |}.
Proof.
  intros num N. split; [|split; [|split]].
  - intros cis. unfold totals. rewrite totals_fold_fields. reflexivity.
  - reflexivity.
  - intros cis. unfold SimpleInvoice.totals.
    rewrite simple_totals_fold_fields. reflexivity.
  - reflexivity.
Qed.

(** C10.  Two collections that differ only in [mrp] have the same gross,
    discount, GST and net amounts line by line, and the same totals, in
    any arithmetic. *)
Theorem mrp_has_no_influence :
  forall num (N : JsNumber num) (l1 l2 : list (Item num)),
    Forall2 sameButMrp l1 l2 ->
    map (@grossAmount num) (calculatedItems l1) =
      map (@grossAmount num) (calculatedItems l2) /\
    map (@discAmt num) (calculatedItems l1) =
      map (@discAmt num) (calculatedItems l2) /\
    map (@gstAmt num) (calculatedItems l1) =
      map (@gstAmt num) (calculatedItems l2) /\
    map (@netAmount num) (calculatedItems l1) =
      map (@netAmount num) (calculatedItems l2) /\
    totals (calculatedItems l1) = totals (calculatedItems l2).
Proof.
  intros num N l1 l2 HF.
  assert (Hcalc : forall a b, sameButMrp a b ->
            grossAmount (calculateItem a) = grossAmount (calculateItem b) /\
            discAmt (calculateItem a) = discAmt (calculateItem b) /\
            gstAmt (calculateItem a) = gstAmt (calculateItem b) /\
            netAmount (calculateItem a) = netAmount (calculateItem b) /\
            orZero (addGst a) = orZero (addGst b) /\
            orZero (advTax a) = orZero (advTax b)).
  { intros a b (_ & _ & _ & _ & _ & Hq & Ht & Hd & Hg & Ha & Hv).
    cbn. rewrite Hq, Ht, Hd, Hg, Ha, Hv. repeat split; reflexivity. }
  assert (Hmaps :
            map (@grossAmount num) (calculatedItems l1) =
              map (@grossAmount num) (calculatedItems l2) /\
            map (@discAmt num) (calculatedItems l1) =
              map (@discAmt num) (calculatedItems l2) /\
            map (@gstAmt num) (calculatedItems l1) =
              map (@gstAmt num) (calculatedItems l2) /\
            map (@netAmount num) (calculatedItems l1) =
              map (@netAmount num) (calculatedItems l2) /\
            map (fun ci => orZero (addGst (item ci))) (calculatedItems l1) =
              map (fun ci => orZero (addGst (item ci))) (calculatedItems l2) /\
            map (fun ci => orZero (advTax (item ci))) (calculatedItems l1) =
              map (fun ci => orZero (advTax (item ci))) (calculatedItems l2)).
  { induction HF as [|a b l1 l2 Hab HF IH].
    - repeat split; reflexivity.
    - destruct (Hcalc a b Hab) as (E1 & E2 & E3 & E4 & E5 & E6).
      destruct IH as (I1 & I2 & I3 & I4 & I5 & I6).
      unfold calculatedItems in *. cbn [map item].
      rewrite E1, E2, E3, E4, I1, I2, I3, I4.
      change (item (calculateItem a)) with a.
      change (item (calculateItem b)) with b.
      rewrite E5, E6, I5, I6. repeat split; reflexivity. }
  destruct Hmaps as (M1 & M2 & M3 & M4 & M5 & M6).
  repeat (split; [assumption|]).
  unfold totals. rewrite !totals_fold_fields.
  rewrite M1, M2, M3, M4, M5, M6. reflexivity.
Qed.

Lemma mrp_has_no_influence_witness :
  let l1 := [gstRow 2 100 150 10 5 0 0]%Q in
  let l2 := [gstRow 2 100 999 10 5 0 0]%Q in
  Forall2 sameButMrp l1 l2 /\
  totals (calculatedItems l1) = totals (calculatedItems l2).
Proof.
  cbn zeta. split.
  - constructor; [|constructor]. repeat split; reflexivity.
  - apply (@mrp_has_no_influence Q Exact).
    constructor; [|constructor]. repeat split; reflexivity.
Defined.

(** *** Exact arithmetic *)

Lemma Qplus_swap_right (a b c : Q) : (a + b + c = a + c + b)%Q.
Proof.
  destruct a as [an ad], b as [bn bd], c as [cn cd].
  unfold Qplus. cbn [Qnum Qden]. f_equal.
  - rewrite !Pos2Z.inj_mul. ring.
  - rewrite <- !Pos.mul_assoc. f_equal. apply Pos.mul_comm.
Qed.

Lemma totalsStep_swap (acc : Totals Q) (a b : CalculatedItem Q) :
  totalsStep (totalsStep acc a) b = totalsStep (totalsStep acc b) a.
Proof.
  unfold totalsStep. cbn [gross disc gst totAddGst totAdvTax net add Exact].
  f_equal; apply Qplus_swap_right.
Qed.

Lemma orZero_exact (x : Q) : (orZero x == x)%Q.
Proof.
  unfold orZero. cbn [toBoolean zero Exact].
  destruct (Qeq_bool x 0) eqn:E; cbn [negb].
  - symmetry. apply Qeq_bool_eq. exact E.
  - reflexivity.
Qed.

(** The net amount as one product: the gross, the share left after the
    discount and the GST uplift, plus the flat charges. *)
Lemma exact_net_closed_form (it : Item Q) :
  (netAmount (calculateItem it) ==
   qty it * tp it * ((100 - discPercent it) * (100 + gstPercent it))
     / 10000 + addGst it + advTax it)%Q.
Proof.
  cbn [calculateItem netAmount add sub mul div hundred Exact].
  rewrite !orZero_exact. field.
Qed.

(** C6 (amended).  In exact arithmetic the totals of a sequence of
    computed items and of any permutation of it are equal. *)
Theorem exact_totals_order_independent :
  forall cis cis' : list (CalculatedItem Q),
    Permutation cis cis' -> totals cis = totals cis'.
Proof.
  intros cis cis' HP. unfold totals. generalize (@totalsInit Q Exact).
  induction HP as [|x l l' HP IH|x y l|l l' l'' HP1 IH1 HP2 IH2];
    intros acc; cbn [fold_left].
  - reflexivity.
  - apply IH.
  - rewrite totalsStep_swap. reflexivity.
  - rewrite IH1. apply IH2.
Qed.

Lemma exact_totals_order_independent_witness :
  let a := calculateItem (gstRow (1 # 10) 1 0 0 0 0 0)%Q in
  let b := calculateItem (gstRow (2 # 10) 1 0 0 0 0 0)%Q in
  Permutation [a; b] [b; a] /\ totals [a; b] = totals [b; a].
Proof.
  cbn zeta. split.
  - apply perm_swap.
  - apply exact_totals_order_independent. apply perm_swap.
Defined.

(** C6, as stated, fails in binary64: adding 0.1, 0.2, 0.3 in this order
    and in the reverse order gives two different gross totals. *)
Lemma binary64_totals_depend_on_order :
  let cis := calculatedItems dimeRows in
  Permutation cis (rev cis) /\
  PrimFloat.eqb (gross (totals cis)) (gross (totals (rev cis))) = false.
Proof.
  cbn zeta. split.
  - apply Permutation_rev.
  - vm_compute. reflexivity.
Qed.

(** C7 (amended).  In exact arithmetic, for a row whose fields are
    non-negative and whose discount is at most 100 percent, raising the
    quantity alone, or the unit price alone, never lowers the net
    amount. *)
Theorem exact_net_monotone :
  forall (it : Item Q) (x : Q),
    (0 <= qty it -> 0 <= tp it ->
     0 <= discPercent it -> discPercent it <= 100 ->
     0 <= gstPercent it -> 0 <= addGst it -> 0 <= advTax it ->
     (qty it <= x ->
      netAmount (calculateItem it) <= netAmount (calculateItem (withQty x it)))
     /\
     (tp it <= x ->
      netAmount (calculateItem it) <= netAmount (calculateItem (withTp x it))))%Q.
Proof.
  intros it x Hq Ht Hd0 Hd Hg Ha Hv.
  assert (Hk : (0 <= (100 - discPercent it) * (100 + gstPercent it))%Q).
  { apply Qmult_le_0_compat; lra. }
  rewrite !exact_net_closed_form.
  destruct it as [i c d p b q t m dp gp ag av].
  cbn [withQty withTp id code desc packSize batchNo qty tp mrp
       discPercent gstPercent addGst advTax] in *.
  set (k := ((100 - dp) * (100 + gp))%Q) in *. clearbody k.
  assert (Hinv : (0 <= / 10000)%Q) by (unfold Qle; cbn; lia).
  split; intros Hx; rewrite !Qplus_le_l; unfold Qdiv;
    apply Qmult_le_compat_r; try assumption;
    apply Qmult_le_compat_r; try assumption.
  - apply Qmult_le_compat_r; assumption.
  - rewrite (Qmult_comm q t), (Qmult_comm q x).
    apply Qmult_le_compat_r; assumption.
Qed.

Lemma exact_net_monotone_witness :
  (netAmount (calculateItem (gstRow 2 100 0 10 5 0 0)) <=
   netAmount (calculateItem (withQty 3 (gstRow 2 100 0 10 5 0 0))))%Q.
Proof.
  refine (proj1 (@exact_net_monotone (gstRow 2 100 0 10 5 0 0)%Q 3%Q
                   _ _ _ _ _ _ _) _);
    cbn; unfold Qle; cbn; lia.
Defined.

(** C7, as stated, fails: every field is non-negative, yet at a discount
    of 200 percent doubling the quantity lowers the net amount from -100
    to -200; and in binary64 a 100 percent discount on a unit price of
    0.001 gives 0 for six units and a negative amount for seven. *)
Lemma net_can_decrease_with_quantity :
  (let it := gstRow 1 100 0 200 0 0 0 in
   netAmount (calculateItem it) = -100 /\
   netAmount (calculateItem (withQty 2 it)) = -200)%float /\
  (netAmount (calculateItem (freeRow 6)) = 0 /\
   PrimFloat.ltb (netAmount (calculateItem (withQty 7 (freeRow 6)))) 0 = true)%float.
Proof. evaluate. Qed.

End CalculationFacts.

(** * Amount in words *)

Module WordsFacts.
Import SimpleInvoice.

(** C9.  Zero gives the fixed phrase, and 1500, one lakh and one crore
    give phrases containing their magnitude words. *)
Theorem amountInWords_examples :
  amountInWords 0 = "Zero Rupees Only"%string /\
  contains "One Thousand Five Hundred" (amountInWords 1500) /\
  contains "One Lakh" (amountInWords 100000) /\
  contains "One Crore" (amountInWords 10000000).
Proof.
  split; [reflexivity|].
  repeat split; exists "Rupees "%string, "  Only"%string;
    vm_compute; reflexivity.
Qed.

End WordsFacts.

(** * Focus navigation and row management *)

Module NavigatorFacts.
Import GstInvoice.

Section Lists.

Lemma at_In {A} (l : list A) (i : Z) (x : A) : at_ l i = Some x -> In x l.
Proof.
  unfold at_. destruct (i <? 0)%Z; [discriminate|].
  apply nth_error_In.
Qed.

Lemma at_app_middle {A} (pre : list A) (x : A) (post : list A) :
  at_ (pre ++ x :: post) (len pre) = Some x.
Proof.
  unfold at_, len.
  destruct (Z.ltb_spec (Z.of_nat (List.length pre)) 0); [lia|].
  rewrite Nat2Z.id, nth_error_app2 by lia.
  rewrite Nat.sub_diag. reflexivity.
Qed.

Lemma at_app_next {A} (pre : list A) (x y : A) (post : list A) :
  at_ (pre ++ x :: y :: post) (len pre + 1) = Some y.
Proof.
  replace (pre ++ x :: y :: post) with ((pre ++ [x]) ++ y :: post)
    by (rewrite <- app_assoc; reflexivity).
  replace (len pre + 1)%Z with (len (pre ++ [x])).
  - apply at_app_middle.
  - unfold len. rewrite length_app. cbn. lia.
Qed.

Lemma len_app {A} (l1 l2 : list A) : len (l1 ++ l2) = (len l1 + len l2)%Z.
Proof. unfold len. rewrite length_app. lia. Qed.

Lemma len_cons {A} (x : A) (l : list A) : len (x :: l) = (1 + len l)%Z.
Proof. unfold len. cbn [List.length]. lia. Qed.

Lemma len_nonneg {A} (l : list A) : (0 <= len l)%Z.
Proof. unfold len. lia. Qed.

Lemma findIndexFrom_first {A} (p : A -> bool) (pre : list A) (x : A)
      (post : list A) (i : Z) :
  (forall y, In y pre -> p y = false) -> p x = true ->
  findIndexFrom p i (pre ++ x :: post) = (i + len pre)%Z.
Proof.
  revert i. induction pre as [|y pre IH]; intros i Hpre Hx; cbn.
  - rewrite Hx. unfold len. cbn. lia.
  - rewrite (Hpre y) by (left; reflexivity).
    rewrite IH by (intros; try apply Hpre; try right; assumption).
    unfold len. cbn [List.length]. lia.
Qed.

Lemma findIndex_first {A} (p : A -> bool) (pre : list A) (x : A)
      (post : list A) :
  (forall y, In y pre -> p y = false) -> p x = true ->
  findIndex p (pre ++ x :: post) = len pre.
Proof.
  intros. unfold findIndex. rewrite findIndexFrom_first by assumption. lia.
Qed.

Lemma fold_max_bounds (r : list Z) (a : Z) :
  (a <= fold_left Z.max r a)%Z /\
  (forall x, In x r -> x <= fold_left Z.max r a)%Z.
Proof.
  revert a. induction r as [|y r IH]; intros a; cbn.
  - split; [lia | tauto].
  - destruct (IH (Z.max a y)) as [H1 H2]. split; [lia|].
    intros x [<-|Hx]; [lia | auto].
Qed.

Lemma maxId_ge (l : list Z) (x : Z) : In x l -> (x <= maxId l)%Z.
Proof.
  destruct l as [|a r]; [intros []|].
  intros [<-|Hx]; cbn.
  - apply (proj1 (fold_max_bounds r a)).
  - apply (proj2 (fold_max_bounds r a)). assumption.
Qed.

Lemma maxId_nonneg (l : list Z) :
  Forall (fun i => 0 < i)%Z l -> (0 <= maxId l)%Z.
Proof.
  destruct l as [|a r]; [cbn; lia|].
  intros HF. inversion HF; subst.
  pose proof (maxId_ge (a :: r) a (or_introl eq_refl)). lia.
Qed.

Lemma NoDup_all_equal (l : list Z) (v : Z) :
  NoDup l -> (forall x, In x l -> x = v) -> (List.length l <= 1)%nat.
Proof.
  intros HN Hall. destruct l as [|a [|b r]]; cbn; try lia.
  exfalso. inversion HN as [|? ? Hnotin _]; subst.
  apply Hnotin. left.
  rewrite (Hall a), (Hall b); cbn; auto.
Qed.

Lemma NoDup_fields : NoDup fields.
Proof.
  unfold fields.
  repeat (constructor; [cbn; intuition discriminate|]). constructor.
Qed.

Lemma rendered_in_fields (f : string) :
  existsb (String.eqb f) renderedFields = true -> In f fields.
Proof.
  intros E. apply existsb_exists in E. destruct E as (g & Hg & E).
  apply String.eqb_eq in E. subst g.
  cbn in Hg. cbn. intuition.
Qed.

End Lists.

Section Session.
Context {num : Type} `{JsNumber num}.

Implicit Types s : State num.

Lemma hasRow_In (r : Z) s : hasRow r s = true -> In r (ids s).
Proof.
  unfold hasRow. intros E. apply existsb_exists in E.
  destruct E as (x & Hx & E). apply Z.eqb_eq in E. subst x. exact Hx.
Qed.

Lemma ids_filter (rid : Z) (l : list (Item num)) :
  map (@id num) (filter (fun it => negb (id it =? rid)%Z) l) =
  filter (fun i => negb (i =? rid)%Z) (map (@id num) l).
Proof.
  induction l as [|it l IH]; cbn; [reflexivity|].
  destruct (id it =? rid)%Z; cbn; rewrite IH; reflexivity.
Qed.

Lemma settled_initial : settled (@initialState num _).
Proof.
  unfold settled, ids. cbn. repeat split.
  - repeat constructor. intros [].
  - repeat constructor.
  - left. reflexivity.
  - left. reflexivity.
Qed.

Lemma settled_flush s : settled s -> settled (flushTimers s).
Proof.
  intros (HN & HP & HR & HF & HT). unfold settled, flushTimers, ids in *.
  cbn. rewrite HT. cbn. repeat split; assumption.
Qed.

Lemma settled_setFocus (p : FocusPosition) s :
  settled s -> In (rowId p) (ids s) -> In (field p) fields ->
  settled (flushTimers (setFocusPosition p s)).
Proof.
  intros (HN & HP & HR & HF & HT) Hr Hf.
  unfold settled, flushTimers, setFocusPosition, ids in *.
  cbn. rewrite HT. cbn. repeat split; assumption.
Qed.

(** The row [addItem] appends carries an id above every id in use. *)
Lemma newId_fresh s :
  Forall (fun i => 0 < i)%Z (ids s) ->
  (0 < maxId (ids s) + 1)%Z /\
  Forall (fun i => i < maxId (ids s) + 1)%Z (ids s) /\
  ~ In (maxId (ids s) + 1)%Z (ids s).
Proof.
  intros HP. pose proof (maxId_nonneg HP). repeat split.
  - lia.
  - apply Forall_forall. intros x Hx. apply maxId_ge in Hx. lia.
  - intros Hin. apply maxId_ge in Hin. lia.
Qed.

Lemma run_addItem s :
  timers s = [] ->
  flushTimers (addItem s) =
  {| items := items s ++ [blankItem (maxId (ids s) + 1)];
     focusPosition := {| rowId := (maxId (ids s) + 1)%Z; field := "code" |};
     timers := [] |}.
Proof.
  intros HT. unfold flushTimers, addItem. cbn. rewrite HT. reflexivity.
Qed.

Lemma settled_addItem s : settled s -> settled (flushTimers (addItem s)).
Proof.
  intros (HN & HP & HR & HF & HT). rewrite run_addItem by assumption.
  destruct (newId_fresh s HP) as (Hpos & Hlt & Hnew).
  unfold settled, ids in *. cbn [items focusPosition timers rowId field].
  rewrite map_app. cbn [map blankItem id]. repeat split.
  - apply NoDup_app; [assumption | repeat constructor; intros [] |].
    intros x Hx [<-|[]]. apply Hnew. exact Hx.
  - apply Forall_app. split; [assumption | repeat constructor; assumption].
  - apply in_or_app. right. left. reflexivity.
  - left. reflexivity.
Qed.

(** The two outcomes of [removeItem] once its timer has run. *)
Lemma run_removeItem_sole (rid : Z) s :
  timers s = [] -> (len (items s) <= 1)%Z ->
  flushTimers (removeItem rid s) =
  {| items := [blankItem 1];
     focusPosition := {| rowId := 1; field := "code" |};
     timers := [] |}.
Proof.
  intros HT Hlen. unfold flushTimers, removeItem.
  destruct (Z.leb_spec (len (items s)) 1); [|lia].
  cbn. rewrite HT. reflexivity.
Qed.

Lemma run_removeItem_many (rid : Z) s :
  timers s = [] -> (1 < len (items s))%Z ->
  flushTimers (removeItem rid s) =
  let newItems := filter (fun it => negb (id it =? rid)%Z) (items s) in
  {| items := newItems;
     focusPosition :=
       if (rowId (focusPosition s) =? rid)%Z
       then runTimer (focusPosition s) (FocusFirst newItems)
       else focusPosition s;
     timers := [] |}.
Proof.
  intros HT Hlen. unfold flushTimers, removeItem.
  destruct (Z.leb_spec (len (items s)) 1); [lia|].
  cbn [items focusPosition timers]. rewrite HT.
  destruct (rowId (focusPosition s) =? rid)%Z; reflexivity.
Qed.

Lemma filter_keeps_a_row (rid : Z) s :
  NoDup (ids s) -> (1 < len (items s))%Z ->
  exists first rest,
    filter (fun it => negb (id it =? rid)%Z) (items s) = first :: rest.
Proof.
  intros HN Hlen.
  destruct (filter (fun it => negb (id it =? rid)%Z) (items s))
    as [|first rest] eqn:E; [exfalso | eauto].
  assert (Hall : forall x, In x (ids s) -> x = rid).
  { intros x Hx. unfold ids in Hx. apply in_map_iff in Hx.
    destruct Hx as (it & <- & Hit).
    destruct (Z.eqb_spec (id it) rid) as [Heq|Hne]; [exact Heq|].
    assert (Hin : In it (filter (fun it => negb (id it =? rid)%Z) (items s))).
    { apply filter_In. split; [exact Hit|].
      apply negb_true_iff. apply Z.eqb_neq. exact Hne. }
    rewrite E in Hin. destruct Hin. }
  pose proof (NoDup_all_equal HN Hall) as Hle.
  unfold ids in Hle. rewrite length_map in Hle. unfold len in Hlen. lia.
Qed.

Lemma settled_removeItem (rid : Z) s :
  settled s -> settled (flushTimers (removeItem rid s)).
Proof.
  intros (HN & HP & HR & HF & HT).
  destruct (Z.leb_spec (len (items s)) 1) as [Hlen|Hlen].
  - rewrite run_removeItem_sole by assumption. apply settled_initial.
  - rewrite run_removeItem_many by assumption. cbn zeta.
    destruct (filter_keeps_a_row rid s HN Hlen) as (first & rest & E).
    assert (HN' : NoDup (filter (fun i => negb (i =? rid)%Z) (ids s)))
      by (apply NoDup_filter; exact HN).
    assert (HP' : Forall (fun i => 0 < i)%Z
                    (filter (fun i => negb (i =? rid)%Z) (ids s))).
    { apply Forall_forall. intros x Hx. apply filter_In in Hx.
      rewrite Forall_forall in HP. apply HP. apply Hx. }
    unfold settled, ids in *. cbn [items focusPosition timers].
    rewrite ids_filter.
    destruct (Z.eqb_spec (rowId (focusPosition s)) rid) as [Heq|Hne].
    + rewrite E. cbn [runTimer rowId field]. repeat split; try assumption.
      * rewrite <- ids_filter, E. left. reflexivity.
      * left. reflexivity.
    + repeat split; try assumption.
      apply filter_In. split; [assumption|].
      apply negb_true_iff. apply Z.eqb_neq. exact Hne.
Qed.

Lemma settled_handleFieldFocus (r : Z) (f : string) s :
  settled s -> In r (ids s) -> In f fields ->
  settled (flushTimers (handleFieldFocus r f s)).
Proof.
  intros HS Hr Hf. unfold handleFieldFocus.
  destruct (negb (rowId (focusPosition s) =? r)%Z
            || negb (String.eqb (field (focusPosition s)) f)).
  - apply settled_setFocus; assumption.
  - apply settled_flush. exact HS.
Qed.

Lemma settled_handleKeyDown (key : string) (r : Z) (f : string) s :
  settled s -> In r (ids s) -> In f fields ->
  settled (flushTimers (handleKeyDown key r f s)).
Proof.
  intros HS Hr Hf. unfold handleKeyDown.
  destruct (String.eqb key "Enter" || String.eqb key "Tab").
  - destruct (indexOf f fields <? len fields - 1)%Z.
    + destruct (at_ fields (indexOf f fields + 1)) as [next|] eqn:E.
      * apply settled_setFocus; try assumption. cbn [rowId field].
        eapply at_In. exact E.
      * apply settled_flush. exact HS.
    + destruct (findIndex (fun it => (id it =? r)%Z) (items s)
                <? len (items s) - 1)%Z.
      * destruct (at_ (items s) _) as [nextRow|] eqn:E.
        -- apply settled_setFocus; try assumption; cbn [rowId field].
           ++ unfold ids. apply in_map. eapply at_In. exact E.
           ++ left. reflexivity.
        -- apply settled_flush. exact HS.
      * apply settled_addItem. exact HS.
  - destruct (String.eqb key "ArrowUp" || String.eqb key "ArrowDown").
    + destruct ((0 <=? _)%Z && _).
      * destruct (at_ (items s) _) as [newRow|] eqn:E.
        -- apply settled_setFocus; try assumption; cbn [rowId field].
           unfold ids. apply in_map. eapply at_In. exact E.
        -- apply settled_flush. exact HS.
      * apply settled_flush. exact HS.
    + apply settled_flush. exact HS.
Qed.

Lemma settled_run (e : Event) s :
  settled s -> enabled e s = true -> settled (run e s).
Proof.
  intros HS He. unfold run. destruct e as [key r f|r f| |rid]; cbn in *.
  - apply andb_true_iff in He. destruct He as [Hr Hf].
    apply settled_handleKeyDown;
      [assumption | apply hasRow_In | apply rendered_in_fields]; assumption.
  - apply andb_true_iff in He. destruct He as [Hr Hf].
    apply settled_handleFieldFocus;
      [assumption | apply hasRow_In | apply rendered_in_fields]; assumption.
  - apply settled_addItem. exact HS.
  - apply settled_removeItem. exact HS.
Qed.

Lemma reachable_settled s : reachable s -> settled s.
Proof.
  induction 1 as [|e s Hs IH He].
  - apply settled_initial.
  - apply settled_run; assumption.
Qed.

Lemma reachable_runAll (es : list Event) s :
  reachable s -> allEnabled es s = true -> reachable (runAll es s).
Proof.
  revert s. induction es as [|e es IH]; intros s Hs He; cbn in *.
  - exact Hs.
  - apply andb_true_iff in He. destruct He as [He Hes].
    apply IH; [constructor|]; assumption.
Qed.

End Session.

(** Why [run] is the unit of the invariant: when the focused row is
    removed, the handler alone leaves the focus position on the removed
    row; it is the timer that moves it to the first remaining row. *)
Remark focus_waits_for_timer :
  let s := run ClickAdd (@initialState Q Exact) in
  let mid := handle (ClickRemove 2) s in
  focusPosition s = {| rowId := 2; field := "code" |} /\
  ids mid = [1%Z] /\
  focusPosition mid = {| rowId := 2; field := "code" |} /\
  focusPosition (flushTimers mid) = {| rowId := 1; field := "code" |}.
Proof. evaluate. Qed.

(** The tab order lists [addGst], for which no cell is rendered: Enter
    in the [gstPercent] cell sets the focus position to a cell without an
    input element, and Enter in that same cell again leaves it there. *)
Remark advance_from_gstPercent :
  let s1 := run (KeyDown "Enter" 1 "gstPercent") (@initialState Q Exact) in
  let s2 := run (KeyDown "Enter" 1 "gstPercent") s1 in
  focusPosition s1 = {| rowId := 1; field := "addGst" |} /\
  enabled (KeyDown "Enter" 1 "addGst") s1 = false /\
  focusPosition s2 = {| rowId := 1; field := "addGst" |}.
Proof. evaluate. Qed.

Section PlainForm.
Context {num : Type} `{JsNumber num}.

Lemma simple_ids_filter (rid : Z) (l : list (SimpleInvoice.Item num)) :
  map (@SimpleInvoice.id num) (SimpleInvoice.removeItem rid l) =
  filter (fun i => negb (i =? rid)%Z) (map (@SimpleInvoice.id num) l).
Proof.
  unfold SimpleInvoice.removeItem.
  induction l as [|it l IH]; cbn; [reflexivity|].
  destruct (SimpleInvoice.id it =? rid)%Z; cbn; rewrite IH; reflexivity.
Qed.

Lemma simple_addItem_ids (l : list (SimpleInvoice.Item num)) :
  let ids := map (@SimpleInvoice.id num) l in
  let newId := (fold_left Z.max ids 0 + 1)%Z in
  map (@SimpleInvoice.id num) (SimpleInvoice.addItem l) = ids ++ [newId] /\
  (0 < newId)%Z /\ Forall (fun i => i < newId)%Z ids.
Proof.
  cbn zeta. unfold SimpleInvoice.addItem. rewrite map_app. cbn [map SimpleInvoice.id].
  destruct (fold_max_bounds (map (@SimpleInvoice.id num) l) 0) as [H0 Hall].
  repeat split; [lia|].
  apply Forall_forall. intros x Hx. apply Hall in Hx. lia.
Qed.

Lemma simple_ids_invariant (l : list (SimpleInvoice.Item num)) :
  simpleReachable l ->
  NoDup (map (@SimpleInvoice.id num) l) /\
  Forall (fun i => 0 < i)%Z (map (@SimpleInvoice.id num) l).
Proof.
  induction 1 as [|l Hl [IHn IHp]|rid l Hl [IHn IHp]|l Hl _].
  - split; constructor.
  - destruct (simple_addItem_ids l) as (E & Hpos & Hlt). rewrite E. split.
    + apply NoDup_app; [assumption | repeat constructor; intros [] |].
      intros x Hx [<-|[]]. rewrite Forall_forall in Hlt.
      apply Hlt in Hx. lia.
    + apply Forall_app. split; [assumption | repeat constructor; assumption].
  - rewrite simple_ids_filter. split.
    + apply NoDup_filter. assumption.
    + apply Forall_forall. intros x Hx. apply filter_In in Hx.
      rewrite Forall_forall in IHp. apply IHp. apply Hx.
  - split; constructor.
Qed.

End PlainForm.

(** C8 (amended).  In both forms, across every session the row ids in
    the collection are positive and pairwise distinct, and a newly added
    row gets an id greater than every id then in the collection. *)
Theorem ids_positive_unique_fresh :
  forall num (N : JsNumber num),
    (forall s : State num,
        reachable s ->
        NoDup (ids s) /\
        Forall (fun i => 0 < i)%Z (ids s) /\
        exists newId,
          ids (run ClickAdd s) = ids s ++ [newId] /\
          Forall (fun i => i < newId)%Z (ids s)) /\
    (forall l : list (SimpleInvoice.Item num),
        simpleReachable l ->
        NoDup (map (@SimpleInvoice.id num) l) /\
        Forall (fun i => 0 < i)%Z (map (@SimpleInvoice.id num) l) /\
        exists newId,
          map (@SimpleInvoice.id num) (SimpleInvoice.addItem l) =
            map (@SimpleInvoice.id num) l ++ [newId] /\
          Forall (fun i => i < newId)%Z (map (@SimpleInvoice.id num) l)).
Proof.
  intros num N. split.
  - intros s Hreach.
    destruct (reachable_settled Hreach) as (HN & HP & _ & _ & HT).
    repeat (split; [assumption|]).
    exists (maxId (ids s) + 1)%Z.
    unfold run, handle. rewrite run_addItem by assumption.
    destruct (newId_fresh s HP) as (_ & Hlt & _).
    split; [|exact Hlt].
    unfold ids. cbn [items]. rewrite map_app. reflexivity.
  - intros l Hl. destruct (simple_ids_invariant Hl) as [HN HP].
    repeat (split; [assumption|]).
    destruct (simple_addItem_ids l) as (E & _ & Hlt).
    eexists. split; [exact E | exact Hlt].
Qed.

Lemma ids_positive_unique_fresh_witness :
  let s := run (ClickRemove 2) (run ClickAdd (@initialState Q Exact)) in
  reachable s /\ NoDup (ids s) /\ Forall (fun i => 0 < i)%Z (ids s).
Proof.
  cbn zeta.
  assert (R : reachable
                (run (ClickRemove 2) (run ClickAdd (@initialState Q Exact))))
    by (constructor; [constructor; [constructor|] |]; reflexivity).
  split; [exact R|].
  destruct (proj1 (@ids_positive_unique_fresh Q Exact) _ R) as (HN & HP & _).
  split; assumption.
Defined.

(** C8, as stated, fails: the id 2 is given to a row, the row is removed,
    and the next row added is given the id 2 again. *)
Lemma removed_id_is_assigned_again :
  let s1 := run ClickAdd (@initialState Q Exact) in
  let s2 := run (ClickRemove 2) s1 in
  let s3 := run ClickAdd s2 in
  allEnabled [ClickAdd; ClickRemove 2; ClickAdd] (@initialState Q Exact) = true
  /\ ids s1 = [1; 2]%Z /\ ids s2 = [1]%Z /\ ids s3 = [1; 2]%Z.
Proof. evaluate. Qed.

End NavigatorFacts.

(** * More on the amount phrase *)

Module PhraseFacts.
Import SimpleInvoice AmountParts.

Local Open Scope string_scope.

Lemma append_assoc (a b c : string) : (a ++ b) ++ c = a ++ (b ++ c).
Proof. induction a as [|ch a IH]; cbn; [reflexivity | rewrite IH; reflexivity]. Qed.

Lemma append_nil_r (a : string) : a ++ "" = a.
Proof. induction a as [|ch a IH]; cbn; [reflexivity | rewrite IH; reflexivity]. Qed.

(** The phrase of a non-zero amount, part by part. *)
Lemma amountInWords_parts (amount : Q) :
  Qeq_bool amount 0 = false ->
  amountInWords amount =
  "Rupees " ++ magnitudeWords amount ++ paisaPart (paisaOf amount) ++ " Only".
Proof.
  intros Hnz. unfold amountInWords. rewrite Hnz. cbv zeta.
  unfold magnitudeWords, magnitudePart, hundredsPart, tensAndOnesPart,
    paisaPart, croresOf, lakhsOf, thousandsOf, hundredsOf, tensAndOnesOf,
    paisaOf.
  destruct (0 <? Qfloor (amount / 10000000))%Z;
    destruct (0 <? Qfloor (jsRem amount 10000000 / 100000))%Z;
    destruct (0 <? Qfloor (jsRem amount 100000 / 1000))%Z;
    destruct (0 <? Qfloor (jsRem amount 1000 / 100))%Z;
    destruct (0 <? Qfloor (jsRem amount 100))%Z;
    try destruct (Qfloor (jsRem amount 100) <? 20)%Z;
    destruct (0 <? mathRound ((amount - inject_Z (Qfloor amount)) * 100))%Z;
    rewrite ?append_assoc; cbn [append]; rewrite ?append_nil_r;
    reflexivity.
Qed.

Local Open Scope Q_scope.

Lemma floor_below_one (x : Q) : x < 1 -> (0 <? Qfloor x)%Z = false.
Proof.
  intros Hx. apply Z.ltb_ge.
  assert (H : inject_Z (Qfloor x) < inject_Z 1).
  { apply Qle_lt_trans with x; [apply Qfloor_le | exact Hx]. }
  rewrite <- Zlt_Qlt in H. lia.
Qed.

Lemma Qtrunc_small (x : Q) : 0 <= x -> x < 1 -> Qtrunc x = 0%Z.
Proof.
  destruct x as [n d]. unfold Qle, Qlt, Qtrunc. cbn [Qnum Qden].
  intros H0 H1. apply Z.quot_small. lia.
Qed.

Lemma Qtrunc_nonpos (x : Q) : x <= 0 -> x <= inject_Z (Qtrunc x).
Proof.
  destruct x as [n d]. unfold Qle, Qtrunc, inject_Z. cbn [Qnum Qden].
  intros H0.
  pose proof (Z.mul_quot_ge n (Zpos d)) as H. lia.
Qed.

Lemma div_below_one (x k : Q) : x < 1 -> 1 <= k -> x / k < 1.
Proof.
  intros Hx Hk. apply Qlt_shift_div_r; lra.
Qed.

(** The remainder of an amount below one stays below one. *)
Lemma jsRem_below_one (a m : Q) : a < 1 -> 1 <= m -> jsRem a m < 1.
Proof.
  intros Ha Hm. unfold jsRem.
  destruct (Qlt_le_dec a 0) as [Hneg|Hpos].
  - assert (Hq : a / m <= 0).
    { apply Qle_shift_div_r; lra. }
    pose proof (Qtrunc_nonpos Hq) as Ht.
    assert (Hle : a <= m * inject_Z (Qtrunc (a / m))).
    { setoid_replace a with (m * (a / m)) at 1
        by (symmetry; apply Qmult_div_r; lra).
      apply Qmult_le_l; [lra | exact Ht]. }
    lra.
  - assert (Hq0 : 0 <= a / m) by (apply Qle_shift_div_l; lra).
    assert (Hq1 : a / m < 1) by (apply div_below_one; assumption).
    rewrite (Qtrunc_small Hq0 Hq1). change (inject_Z 0) with 0. lra.
Qed.

(** Below one rupee no magnitude word is produced. *)
Lemma magnitudeWords_below_one (amount : Q) :
  amount < 1 -> magnitudeWords amount = ""%string.
Proof.
  intros Ha.
  unfold magnitudeWords, magnitudePart, hundredsPart, tensAndOnesPart,
    croresOf, lakhsOf, thousandsOf, hundredsOf, tensAndOnesOf.
  rewrite !floor_below_one; [reflexivity | ..].
  - apply jsRem_below_one; [exact Ha | lra].
  - apply div_below_one; [apply jsRem_below_one; [exact Ha | lra] | lra].
  - apply div_below_one; [apply jsRem_below_one; [exact Ha | lra] | lra].
  - apply div_below_one; [apply jsRem_below_one; [exact Ha | lra] | lra].
  - apply div_below_one; [exact Ha | lra].
Qed.

Lemma Qeq_bool_false (x : Q) : ~ x == 0 -> Qeq_bool x 0 = false.
Proof.
  intros H. destruct (Qeq_bool x 0) eqn:E; [|reflexivity].
  exfalso. apply H. apply Qeq_bool_eq. exact E.
Qed.

(** The paisa are between 0 and 100, whatever the amount. *)
Lemma paisaOf_range (amount : Q) : (0 <= paisaOf amount <= 100)%Z.
Proof.
  unfold paisaOf, mathRound.
  set (f := amount - inject_Z (Qfloor amount)).
  assert (Hlo : 0 <= f) by (unfold f; pose proof (Qfloor_le amount); lra).
  assert (Hhi : f < 1).
  { unfold f. pose proof (Qlt_floor amount) as H.
    rewrite inject_Z_plus in H. change (inject_Z 1) with 1 in H. lra. }
  clearbody f. split.
  - rewrite <- (Qfloor_Z 0). apply Qfloor_resp_le.
    change (inject_Z 0) with 0. lra.
  - assert (Hlt : (Qfloor (f * 100 + (1 # 2)) < 101)%Z).
    { rewrite Zlt_Qlt.
      apply Qle_lt_trans with (f * 100 + (1 # 2)); [apply Qfloor_le|].
      change (inject_Z 101) with 101. lra. }
    lia.
Qed.

(** X1.  A non-zero amount below one rupee, negative amounts included,
    gets no magnitude word at all: the phrase is [Rupees], the paisa part
    of some number of paisa between 0 and 100 (nothing when it is 0), and
    [Only].  Which number of paisa it is depends on the rounding of the
    product by 100 and is left open here, so that the statement is the
    same for exact and for binary64 arithmetic. *)
Theorem below_one_rupee_no_words :
  forall amount : Q,
    ~ amount == 0 -> amount < 1 ->
    exists n : Z,
      (0 <= n <= 100)%Z /\
      paisaPart 0 = ""%string /\
      amountInWords amount =
      ("Rupees " ++ paisaPart n ++ " Only")%string.
Proof.
  intros amount Hnz Ha.
  exists (paisaOf amount).
  split; [apply paisaOf_range|]. split; [reflexivity|].
  rewrite amountInWords_parts by (apply Qeq_bool_false; exact Hnz).
  rewrite magnitudeWords_below_one by exact Ha. reflexivity.
Qed.

Lemma below_one_rupee_no_words_witness :
  amountInWords (-(9 # 4)) = "Rupees and 75/100 Only"%string /\
  exists n : Z,
    (0 <= n <= 100)%Z /\
    amountInWords (-(9 # 4)) = ("Rupees " ++ paisaPart n ++ " Only")%string.
Proof.
  split; [reflexivity|].
  destruct (@below_one_rupee_no_words (-(9 # 4))) as (n & Hn & _ & E);
    [discriminate | reflexivity |].
  exists n. split; [exact Hn | exact E].
Defined.

Lemma group_of_hundred_or_more (c : Z) :
  (100 <= c)%Z ->
  group c = ("undefined " ++ interpolate (at_ words (Z.rem c 10)))%string.
Proof.
  intros Hc. unfold group, tensAndUnit, at_.
  destruct (Z.ltb_spec c 0); [lia|].
  destruct (Z.ltb_spec (c / 10) 0);
    [pose proof (Z.div_pos c 10); lia|].
  assert (Hw : nth_error words (Z.to_nat c) = None).
  { apply nth_error_None. cbn [List.length words]. lia. }
  assert (Ht : nth_error tens (Z.to_nat (c / 10)) = None).
  { apply nth_error_None. cbn [List.length tens].
    assert (10 <= c / 10)%Z by (apply Z.div_le_lower_bound; lia). lia. }
  rewrite Hw, Ht. reflexivity.
Qed.

(** X2.  From one hundred crore (10^9) upwards the crore group has no
    word in the tables, and the phrase begins with [Rupees undefined]. *)
Theorem hundred_crore_prints_undefined :
  forall amount : Q,
    1000000000 <= amount ->
    exists rest,
      amountInWords amount = ("Rupees undefined " ++ rest)%string.
Proof.
  intros amount Ha.
  assert (Hc : (100 <= croresOf amount)%Z).
  { unfold croresOf. rewrite <- (Qfloor_Z 100).
    apply Qfloor_resp_le. apply Qle_shift_div_l; [reflexivity|].
    change (inject_Z 100 * 10000000) with 1000000000. exact Ha. }
  rewrite amountInWords_parts by (apply Qeq_bool_false; lra).
  unfold magnitudeWords. unfold magnitudePart at 1.
  destruct (Z.ltb_spec 0 (croresOf amount)); [|lia].
  rewrite (group_of_hundred_or_more Hc).
  rewrite !append_assoc. cbn [append]. eexists. reflexivity.
Qed.

Lemma hundred_crore_prints_undefined_witness :
  exists rest,
    amountInWords 2500000000 = ("Rupees undefined " ++ rest)%string.
Proof.
  apply hundred_crore_prints_undefined. unfold Qle. cbn. lia.
Defined.

Lemma paisaOf_hundred (amount : Q) :
  199 # 200 <= amount - inject_Z (Qfloor amount) -> paisaOf amount = 100%Z.
Proof.
  intros Hf. unfold paisaOf, mathRound.
  set (f := amount - inject_Z (Qfloor amount)) in *.
  assert (Hlt : f < 1).
  { unfold f. pose proof (Qlt_floor amount) as H.
    rewrite inject_Z_plus in H. change (inject_Z 1) with 1 in H. lra. }
  clearbody f.
  assert (Hlo : (Qfloor (inject_Z 100) <= Qfloor (f * 100 + (1 # 2)))%Z).
  { apply Qfloor_resp_le. change (inject_Z 100) with 100. lra. }
  rewrite Qfloor_Z in Hlo.
  assert (Hhi : (Qfloor (f * 100 + (1 # 2)) < 101)%Z).
  { rewrite Zlt_Qlt.
    apply Qle_lt_trans with (f * 100 + (1 # 2)); [apply Qfloor_le|].
    change (inject_Z 101) with 101. lra. }
  lia.
Qed.

(** X3.  The paisa are rounded on their own and never carried into the
    rupees: when the fraction is 0.995 or more the phrase ends with
    [and 100/100 Only]. *)
Theorem paisa_round_up_to_hundred :
  forall amount : Q,
    ~ amount == 0 ->
    199 # 200 <= amount - inject_Z (Qfloor amount) ->
    exists front,
      amountInWords amount = (front ++ "and 100/100 Only")%string.
Proof.
  intros amount Hnz Hf.
  rewrite amountInWords_parts by (apply Qeq_bool_false; exact Hnz).
  rewrite (paisaOf_hundred Hf).
  exists ("Rupees " ++ magnitudeWords amount)%string.
  change (paisaPart 100) with "and 100/100"%string.
  rewrite !append_assoc. reflexivity.
Qed.

Lemma paisa_round_up_to_hundred_witness :
  amountInWords (1999 # 1000) = "Rupees One and 100/100 Only"%string /\
  exists front,
    amountInWords (1999 # 1000) = (front ++ "and 100/100 Only")%string.
Proof.
  split; [reflexivity|].
  apply paisa_round_up_to_hundred; [discriminate | unfold Qle; cbn; lia].
Defined.

Lemma Qtrunc_inject (n : Z) (p : positive) :
  Qtrunc (inject_Z n / inject_Z (Zpos p)) = (n ÷ Zpos p)%Z.
Proof.
  unfold Qtrunc, Qdiv, Qmult, Qinv, inject_Z. cbn [Qnum Qden].
  rewrite Z.mul_1_r, Pos.mul_1_l. reflexivity.
Qed.

Lemma jsRem_inject (n : Z) (p : positive) :
  (0 <= n)%Z ->
  jsRem (inject_Z n) (inject_Z (Zpos p)) == inject_Z (n mod Zpos p).
Proof.
  intros Hn. unfold jsRem. rewrite Qtrunc_inject.
  rewrite <- Z.rem_mod_nonneg by lia.
  rewrite (Z.rem_eq n (Zpos p)) by lia.
  unfold Zminus. rewrite inject_Z_plus, inject_Z_opp, inject_Z_mult.
  ring.
Qed.

Lemma floor_div_inject (r : Z) (p : positive) :
  Qfloor (inject_Z r / inject_Z (Zpos p)) = (r / Zpos p)%Z.
Proof. symmetry. apply Zdiv_Qdiv. Qed.

(** X4.  For a whole amount from 1 up to 999,999,999 (below one hundred
    crore, where every quotient and remainder the code takes is the same
    in binary64 as in exact arithmetic) the five groups are the digits of
    the amount in the crore / lakh / thousand / hundred / two-digit
    positional system, each within its range, there are no paisa, and the
    phrase is the magnitude words between [Rupees] and [Only]. *)
Theorem whole_amount_groups :
  forall n : Z,
    (0 < n < 1000000000)%Z ->
    let amount := inject_Z n in
    let c := croresOf amount in
    let l := lakhsOf amount in
    let t := thousandsOf amount in
    let h := hundredsOf amount in
    let r := tensAndOnesOf amount in
    (n = c * 10000000 + l * 100000 + t * 1000 + h * 100 + r)%Z /\
    (0 <= c < 100)%Z /\ (0 <= l < 100)%Z /\ (0 <= t < 100)%Z /\
    (0 <= h < 10)%Z /\ (0 <= r < 100)%Z /\
    paisaOf amount = 0%Z /\
    amountInWords amount =
      ("Rupees " ++ magnitudeWords amount ++ " Only")%string.
Proof.
  intros n Hn amount c l t h r.
  assert (Hc : c = (n / 10000000)%Z).
  { subst c amount. unfold croresOf.
    apply (floor_div_inject n 10000000). }
  assert (Hl : l = (n mod 10000000 / 100000)%Z).
  { subst l amount. unfold lakhsOf.
    rewrite <- (floor_div_inject (n mod 10000000) 100000).
    apply Qfloor_comp.
    rewrite <- (@jsRem_inject n 10000000) by lia. reflexivity. }
  assert (Ht : t = (n mod 100000 / 1000)%Z).
  { subst t amount. unfold thousandsOf.
    rewrite <- (floor_div_inject (n mod 100000) 1000).
    apply Qfloor_comp.
    rewrite <- (@jsRem_inject n 100000) by lia. reflexivity. }
  assert (Hh : h = (n mod 1000 / 100)%Z).
  { subst h amount. unfold hundredsOf.
    rewrite <- (floor_div_inject (n mod 1000) 100).
    apply Qfloor_comp.
    rewrite <- (@jsRem_inject n 1000) by lia. reflexivity. }
  assert (Hr : r = (n mod 100)%Z).
  { subst r amount. unfold tensAndOnesOf.
    rewrite <- (Qfloor_Z (n mod 100)).
    apply Qfloor_comp.
    rewrite <- (@jsRem_inject n 100) by lia. reflexivity. }
  assert (Hp : paisaOf amount = 0%Z).
  { subst amount. unfold paisaOf, mathRound. rewrite Qfloor_Z.
    transitivity (Qfloor (1 # 2)); [|reflexivity].
    apply Qfloor_comp. ring. }
  clearbody c l t h r.
  repeat split; try exact Hp;
    try (subst c l t h r; clear Hp; Z.div_mod_to_equations; lia).
  rewrite amountInWords_parts.
  - rewrite Hp. reflexivity.
  - apply Qeq_bool_false. subst amount. unfold Qeq. cbn. lia.
Qed.

Lemma whole_amount_groups_witness :
  croresOf 123456789 = 12%Z /\ lakhsOf 123456789 = 34%Z /\
  amountInWords 123456789 =
    ("Rupees " ++ magnitudeWords 123456789 ++ " Only")%string.
Proof.
  destruct (@whole_amount_groups 123456789 (conj eq_refl eq_refl))
    as (_ & _ & _ & _ & _ & _ & _ & Hphrase).
  split; [reflexivity | split; [reflexivity | exact Hphrase]].
Defined.

Lemma in_twoDigits (n : Z) : (1 <= n <= 99)%Z -> In n twoDigits.
Proof.
  intros Hn. unfold twoDigits.
  replace n with (Z.of_nat (Z.to_nat n)) by lia.
  apply in_map. apply in_seq. lia.
Qed.

(** X5.  The names of the values 1 to 99 are pairwise distinct: two
    different group values never read the same. *)
Theorem group_names_distinct :
  forall m n : Z,
    (1 <= m <= 99)%Z -> (1 <= n <= 99)%Z -> group m = group n -> m = n.
Proof.
  intros m n Hm Hn E.
  assert (Hall : forallb (fun a => forallb (fun b =>
              implb (String.eqb (group a) (group b)) (a =? b)%Z) twoDigits)
            twoDigits = true) by (vm_compute; reflexivity).
  rewrite forallb_forall in Hall.
  specialize (Hall m (in_twoDigits Hm)).
  rewrite forallb_forall in Hall.
  specialize (Hall n (in_twoDigits Hn)).
  rewrite E, String.eqb_refl in Hall. cbn in Hall.
  apply Z.eqb_eq. exact Hall.
Qed.

Lemma group_names_distinct_witness :
  group 40 = "Forty "%string /\ (group 40 = group 14 -> 40 = 14)%Z.
Proof.
  split; [reflexivity|].
  apply group_names_distinct; lia.
Defined.

End PhraseFacts.

(** * More on navigation and row management *)

Module GridFacts.
Import GstInvoice NavigatorFacts.

Section Grid.
Context {num : Type} `{JsNumber num}.

Implicit Types s : State num.

Lemma flushTimers_idle s : timers s = [] -> flushTimers s = s.
Proof.
  destruct s as [its fp ts]. cbn. intros ->. reflexivity.
Qed.

Lemma flush_setFocus (p : FocusPosition) s :
  timers s = [] -> flushTimers (setFocusPosition p s) = setFocusPosition p s.
Proof. intros HT. apply flushTimers_idle. exact HT. Qed.

(** The index [findIndex] returns for a row of a grid with distinct ids. *)
Lemma findIndex_row (l : list (Item num)) before it after :
  NoDup (map (@id num) l) -> l = before ++ it :: after ->
  findIndex (fun x => (id x =? id it)%Z) l = len before.
Proof.
  intros HN E. rewrite E.
  apply findIndex_first; [|apply Z.eqb_refl].
  intros y Hy. apply Z.eqb_neq. intros Hy'.
  rewrite E, map_app in HN. cbn [map] in HN.
  apply NoDup_remove_2 in HN. apply HN. apply in_or_app. left.
  rewrite <- Hy'. apply in_map. exact Hy.
Qed.

Lemma arrow_down s before it after f :
  NoDup (ids s) -> items s = before ++ it :: after ->
  handle (KeyDown "ArrowDown" (id it) f) s =
  match after with
  | nxt :: _ => setFocusPosition {| rowId := id nxt; field := f |} s
  | [] => s
  end.
Proof.
  intros HN E. unfold handle, handleKeyDown.
  cbn [String.eqb Ascii.eqb Bool.eqb orb andb].
  rewrite findIndex_row with (before := before) (it := it) (after := after)
    by assumption.
  pose proof (len_nonneg before) as Hb.
  destruct after as [|nxt after].
  - assert (Hlen : len (items s) = (len before + 1)%Z).
    { rewrite E, len_app, len_cons. cbn. lia. }
    rewrite Hlen.
    destruct (Z.leb_spec 0 (len before + 1)); [|lia].
    destruct (Z.ltb_spec (len before + 1) (len before + 1)); [lia|].
    reflexivity.
  - assert (Hlen : len (items s) = (len before + 2 + len after)%Z).
    { rewrite E, len_app, !len_cons. lia. }
    assert (Hat : at_ (items s) (len before + 1) = Some nxt)
      by (rewrite E; apply at_app_next).
    rewrite Hlen, Hat. pose proof (len_nonneg after).
    destruct (Z.leb_spec 0 (len before + 1)); [|lia].
    destruct (Z.ltb_spec (len before + 1) (len before + 2 + len after));
      [|lia].
    reflexivity.
Qed.

Lemma arrow_up s before it after f :
  NoDup (ids s) -> items s = before ++ it :: after ->
  handle (KeyDown "ArrowUp" (id it) f) s =
  match rev before with
  | prev :: _ => setFocusPosition {| rowId := id prev; field := f |} s
  | [] => s
  end.
Proof.
  intros HN E. unfold handle, handleKeyDown.
  cbn [String.eqb Ascii.eqb Bool.eqb orb andb].
  rewrite findIndex_row with (before := before) (it := it) (after := after)
    by assumption.
  destruct (rev before) as [|prev rb] eqn:Erev.
  - assert (before = []) as ->.
    { rewrite <- (rev_involutive before), Erev. reflexivity. }
    reflexivity.
  - assert (Eb : before = rev rb ++ [prev]).
    { rewrite <- (rev_involutive before), Erev. reflexivity. }
    assert (Hlb : len before = (len (rev rb) + 1)%Z).
    { rewrite Eb, len_app, len_cons. cbn. lia. }
    assert (Hlen : len (items s) = (len before + 1 + len after)%Z).
    { rewrite E, len_app, len_cons. lia. }
    assert (Hat : at_ (items s) (len before + -1) = Some prev).
    { rewrite E, Eb, <- app_assoc. cbn [app].
      replace (len (rev rb ++ [prev]) + -1)%Z with (len (rev rb))
        by (rewrite len_app, len_cons; cbn; lia).
      apply at_app_middle. }
    rewrite Hlen, Hat.
    pose proof (len_nonneg (rev rb)). pose proof (len_nonneg after).
    destruct (Z.leb_spec 0 (len before + -1)); [|lia].
    destruct (Z.ltb_spec (len before + -1) (len before + 1 + len after));
      [|lia].
    reflexivity.
Qed.

End Grid.

(** X6.  In every state whose row ids are distinct, whatever the rows
    hold, ArrowDown and ArrowUp move the focus to the same column of the
    row below or above and touch nothing else; on the last row ArrowDown,
    and on the first row ArrowUp, return the state unchanged. *)
Theorem vertical_move_clamps :
  forall num (N : JsNumber num) (s : State num) before it after f,
    NoDup (ids s) ->
    items s = before ++ it :: after ->
    handle (KeyDown "ArrowDown" (id it) f) s =
      match after with
      | nxt :: _ => setFocusPosition {| rowId := id nxt; field := f |} s
      | [] => s
      end /\
    handle (KeyDown "ArrowUp" (id it) f) s =
      match rev before with
      | prev :: _ => setFocusPosition {| rowId := id prev; field := f |} s
      | [] => s
      end.
Proof.
  intros num N s before it after f HN E.
  split; [eapply arrow_down | eapply arrow_up]; eassumption.
Qed.

Lemma typedGrid_distinct : NoDup (GstInvoice.ids typedGrid).
Proof.
  vm_compute. repeat (constructor; [cbn; intuition discriminate|]).
  constructor.
Qed.

Lemma vertical_move_clamps_witness :
  NoDup (ids typedGrid) /\
  focusPosition (handle (KeyDown "ArrowUp" 2 "qty") typedGrid) =
    {| rowId := 1; field := "qty" |} /\
  handle (KeyDown "ArrowDown" 3 "qty") typedGrid = typedGrid.
Proof.
  split; [exact typedGrid_distinct|]. split.
  - exact (f_equal (@focusPosition Q)
             (proj2 (@vertical_move_clamps Q Exact typedGrid
                       [typedRow1] typedRow2 [blankItem 3] "qty"%string
                       typedGrid_distinct eq_refl))).
  - exact (proj1 (@vertical_move_clamps Q Exact typedGrid
                    [typedRow1; typedRow2] (blankItem 3) [] "qty"%string
                    typedGrid_distinct eq_refl)).
Defined.

(** X7.  In every state whose row ids are distinct, with the focus on a
    cell of a row that has a row below it, ArrowDown followed by ArrowUp
    in the cell it led to gives back the state exactly as it was. *)
Theorem down_then_up_returns :
  forall num (N : JsNumber num) (s : State num) before it nxt after f,
    NoDup (ids s) ->
    items s = before ++ it :: nxt :: after ->
    focusPosition s = {| rowId := id it; field := f |} ->
    handle (KeyDown "ArrowUp" (id nxt) f)
           (handle (KeyDown "ArrowDown" (id it) f) s) = s.
Proof.
  intros num N s before it nxt after f HN E Hfoc.
  rewrite arrow_down with (before := before) (after := nxt :: after)
    by assumption.
  set (s1 := setFocusPosition {| rowId := id nxt; field := f |} s).
  assert (E1 : items s1 = (before ++ [it]) ++ nxt :: after)
    by (cbn; rewrite E, <- app_assoc; reflexivity).
  rewrite arrow_up with (before := before ++ [it]) (after := after)
    by assumption.
  rewrite rev_app_distr. cbn [rev app].
  destruct s as [its fp ts]. cbn in *. subst fp. reflexivity.
Qed.

Lemma down_then_up_returns_witness :
  let s := setFocusPosition {| rowId := 1; field := "tp" |} typedGrid in
  NoDup (ids s) /\
  handle (KeyDown "ArrowUp" 2 "tp") (handle (KeyDown "ArrowDown" 1 "tp") s)
  = s.
Proof.
  cbn zeta. split; [exact typedGrid_distinct|].
  exact (@down_then_up_returns Q Exact
           (setFocusPosition {| rowId := 1; field := "tp" |} typedGrid)
           [] typedRow1 typedRow2 [blankItem 3] "tp"%string
           typedGrid_distinct eq_refl eq_refl).
Defined.

Section Rows.
Context {num : Type} `{JsNumber num}.

Implicit Types s : State num.

Lemma rendered_before_last (f : string) :
  In f renderedFields -> f <> "advTax"%string ->
  (indexOf f fields <? len fields - 1)%Z = true.
Proof.
  intros Hf Hne. cbn in Hf.
  repeat (destruct Hf as [<-|Hf]; [try reflexivity; congruence|]).
  destruct Hf.
Qed.

Lemma row_split s (r : Z) :
  In r (ids s) ->
  exists before it after, items s = before ++ it :: after /\ id it = r.
Proof.
  intros Hr. unfold ids in Hr. apply in_map_iff in Hr.
  destruct Hr as (it & Hid & Hin). apply in_split in Hin.
  destruct Hin as (before & after & E). eauto.
Qed.

Lemma filter_other_ids (rid : Z) (l : list (Item num)) :
  ~ In rid (map (@id num) l) ->
  filter (fun it => negb (id it =? rid)%Z) l = l.
Proof.
  induction l as [|it l IH]; cbn; [reflexivity|]. intros Hn.
  destruct (Z.eqb_spec (id it) rid) as [Heq|Hne]; [tauto|].
  cbn. rewrite IH by tauto. reflexivity.
Qed.

Lemma filter_one_row (before after : list (Item num)) (it : Item num) :
  NoDup (map (@id num) (before ++ it :: after)) ->
  filter (fun x => negb (id x =? id it)%Z) (before ++ it :: after) =
  before ++ after.
Proof.
  intros HN. rewrite map_app in HN. cbn [map] in HN.
  apply NoDup_remove_2 in HN.
  rewrite filter_app. cbn [filter]. rewrite Z.eqb_refl. cbn [negb].
  rewrite !filter_other_ids; [reflexivity | |];
    intros Hin; apply HN; apply in_or_app; [right | left]; exact Hin.
Qed.

End Rows.

(** X8.  In every state whose row ids are distinct, whatever the rows
    hold, a key press in a rendered cell never removes, reorders or
    rewrites rows: the handler either leaves the rows as they are or
    appends one blank row, and it appends only on Enter or Tab in the
    advance-tax cell of the last row. *)
Theorem keys_only_append_at_the_end :
  forall num (N : JsNumber num) (s : State num) key r f,
    NoDup (ids s) ->
    enabled (KeyDown key r f) s = true ->
    let s' := handle (KeyDown key r f) s in
    items s' = items s \/
    (items s' = items s ++ [blankItem (maxId (ids s) + 1)] /\
     (key = "Enter"%string \/ key = "Tab"%string) /\
     f = "advTax"%string /\
     exists before last, items s = before ++ [last] /\ id last = r).
Proof.
  intros num N s key r f HN He s'.
  unfold enabled in He. apply andb_true_iff in He. destruct He as [Hr Hf].
  apply hasRow_In in Hr.
  apply existsb_exists in Hf. destruct Hf as (g & Hg & Efg).
  apply String.eqb_eq in Efg. subst g.
  subst s'. unfold handle, handleKeyDown.
  destruct (String.eqb key "Enter" || String.eqb key "Tab") eqn:Ek.
  - destruct (indexOf f fields <? len fields - 1)%Z eqn:Ei.
    + left. destruct (at_ fields _); reflexivity.
    + destruct (findIndex _ (items s) <? len (items s) - 1)%Z eqn:Ej.
      * left. destruct (at_ (items s) _); reflexivity.
      * right. unfold addItem. cbn [items].
        split; [reflexivity|]. split.
        { apply orb_true_iff in Ek.
          destruct Ek as [E|E]; apply String.eqb_eq in E; auto. }
        split.
        { destruct (string_dec f "advTax") as [E|E]; [exact E|].
          rewrite (rendered_before_last Hg E) in Ei. discriminate. }
        destruct (row_split s r Hr) as (before & it & after & E & Hid).
        subst r.
        rewrite findIndex_row with (before := before) (it := it)
          (after := after) in Ej by assumption.
        apply Z.ltb_ge in Ej. rewrite E, len_app, len_cons in Ej.
        destruct after as [|x after].
        -- exists before, it. split; [exact E | reflexivity].
        -- rewrite len_cons in Ej. pose proof (len_nonneg after). lia.
  - left.
    destruct (String.eqb key "ArrowUp" || String.eqb key "ArrowDown");
      [|reflexivity].
    destruct ((0 <=? _)%Z && _); [|reflexivity].
    destruct (at_ (items s) _); reflexivity.
Qed.

Lemma keys_only_append_at_the_end_witness :
  items (handle (KeyDown "Tab" 3 "advTax") typedGrid) =
    items typedGrid ++ [blankItem 4] /\
  items (handle (KeyDown "Tab" 2 "advTax") typedGrid) = items typedGrid.
Proof.
  split.
  - destruct (@keys_only_append_at_the_end Q Exact typedGrid
                "Tab"%string 3%Z "advTax"%string
                typedGrid_distinct eq_refl) as [Hsame|[Happ _]];
      [discriminate Hsame | exact Happ].
  - reflexivity.
Defined.

(** X9.  Focusing a cell puts the focus position on exactly that cell
    and leaves the rows alone; when the cell already has the focus the
    state object is returned unchanged, so focusing is idempotent. *)
Theorem direct_focus_is_idempotent :
  forall num (N : JsNumber num) (s : State num) (r : Z) (f : string),
    let s' := handleFieldFocus r f s in
    focusPosition s' = {| rowId := r; field := f |} /\
    items s' = items s /\
    (focusPosition s = {| rowId := r; field := f |} -> s' = s) /\
    handleFieldFocus r f s' = s'.
Proof.
  intros num N s r f s'.
  assert (Hfocus : forall t : State num,
             focusPosition (handleFieldFocus r f t) =
               {| rowId := r; field := f |} /\
             items (handleFieldFocus r f t) = items t).
  { intros [its [fr ff] ts]. unfold handleFieldFocus.
    cbn [focusPosition rowId field].
    destruct (Z.eqb_spec fr r); destruct (String.eqb_spec ff f);
      cbn; subst; split; reflexivity. }
  assert (Hsame : forall t : State num,
             focusPosition t = {| rowId := r; field := f |} ->
             handleFieldFocus r f t = t).
  { intros t E. unfold handleFieldFocus. rewrite E. cbn [rowId field].
    rewrite Z.eqb_refl, String.eqb_refl. reflexivity. }
  subst s'. destruct (Hfocus s) as [H1 H2].
  split; [exact H1|]. split; [exact H2|]. split; [apply Hsame|].
  apply Hsame. exact H1.
Qed.

(** X10.  In the plain form, removing the row that was just added gives
    back the list exactly as it was. *)
Theorem plain_add_then_remove :
  forall num (N : JsNumber num) (l : list (SimpleInvoice.Item num)),
    let newId := (fold_left Z.max (map (@SimpleInvoice.id num) l) 0 + 1)%Z in
    map (@SimpleInvoice.id num) (SimpleInvoice.addItem l) =
      map (@SimpleInvoice.id num) l ++ [newId] /\
    SimpleInvoice.removeItem newId (SimpleInvoice.addItem l) = l.
Proof.
  intros num N l newId.
  destruct (simple_addItem_ids l) as (E & _ & Hlt). split; [exact E|].
  unfold SimpleInvoice.removeItem, SimpleInvoice.addItem.
  rewrite filter_app. cbn [filter SimpleInvoice.id].
  fold newId. rewrite Z.eqb_refl. cbn [negb]. rewrite app_nil_r.
  rewrite Forall_forall in Hlt. fold newId in Hlt.
  clear E. clearbody newId.
  induction l as [|it l IH]; cbn [filter]; [reflexivity|].
  destruct (Z.eqb_spec (SimpleInvoice.id it) newId) as [Heq|Hne].
  - exfalso. specialize (Hlt (SimpleInvoice.id it) (or_introl eq_refl)). lia.
  - cbn [negb]. f_equal. apply IH.
    intros x Hx. apply Hlt. right. exact Hx.
Qed.

(** X11.  In every state with no timer pending and at least one row,
    whatever the rows hold, adding a row and then, once its timer has
    run, removing that new row restores the rows exactly; the focus,
    which was on the new row, ends on the first field of the first row
    and no timer is left. *)
Theorem add_then_remove_restores_rows :
  forall num (N : JsNumber num) (s : State num) first rest,
    timers s = [] ->
    items s = first :: rest ->
    let newId := (maxId (ids s) + 1)%Z in
    ids (run ClickAdd s) = ids s ++ [newId] /\
    run (ClickRemove newId) (run ClickAdd s) =
    {| items := items s;
       focusPosition := {| rowId := id first; field := "code" |};
       timers := [] |}.
Proof.
  intros num N s first rest HT E newId.
  assert (Hnew : ~ In newId (ids s)).
  { intros Hin. apply maxId_ge in Hin. subst newId. lia. }
  unfold run, handle. rewrite run_addItem by exact HT. fold newId.
  split.
  { unfold ids. cbn [items]. rewrite map_app. reflexivity. }
  rewrite run_removeItem_many.
  - cbn zeta. cbn [items focusPosition rowId]. rewrite Z.eqb_refl.
    rewrite filter_app. cbn [filter blankItem id].
    rewrite Z.eqb_refl. cbn [negb]. rewrite app_nil_r.
    rewrite filter_other_ids by exact Hnew.
    rewrite E. reflexivity.
  - reflexivity.
  - cbn [items]. rewrite E, len_app, !len_cons.
    pose proof (len_nonneg rest).
    pose proof (len_nonneg (@nil (Item num))). lia.
Qed.

Lemma add_then_remove_restores_rows_witness :
  run (ClickRemove 4) (run ClickAdd typedGrid) =
  {| items := items typedGrid;
     focusPosition := {| rowId := 1; field := "code" |};
     timers := [] |}.
Proof.
  exact (proj2 (@add_then_remove_restores_rows Q Exact typedGrid
                  typedRow1 [typedRow2; blankItem 3] eq_refl eq_refl)).
Defined.

(** X12.  In every state whose row ids are distinct, whatever the rows
    hold and whatever timers are pending, when at least one other row
    exists [removeItem] returns with exactly that row deleted and all
    others kept unchanged and in order; the focus position is not
    touched by the handler, which sets a timer for the first remaining
    row when the removed row had the focus and none otherwise. *)
Theorem remove_deletes_exactly_one_row :
  forall num (N : JsNumber num) (s : State num) before it after,
    NoDup (ids s) ->
    items s = before ++ it :: after ->
    before ++ after <> [] ->
    handle (ClickRemove (id it)) s =
    {| items := before ++ after;
       focusPosition := focusPosition s;
       timers := timers s ++
                 (if (rowId (focusPosition s) =? id it)%Z
                  then [FocusFirst (before ++ after)] else []) |}.
Proof.
  intros num N s before it after HN E Hne.
  assert (Hpos : (0 < len (before ++ after))%Z).
  { destruct (before ++ after) as [|x rest]; [congruence|].
    rewrite len_cons. pose proof (len_nonneg rest). lia. }
  rewrite len_app in Hpos.
  unfold handle, removeItem.
  destruct (Z.leb_spec (len (items s)) 1) as [Hlen|Hlen].
  { rewrite E, len_app, len_cons in Hlen. lia. }
  rewrite E, filter_one_row
    by (unfold ids in HN; rewrite E in HN; exact HN).
  reflexivity.
Qed.

Lemma remove_deletes_exactly_one_row_witness :
  NoDup (ids typedGrid) /\
  items (handle (ClickRemove 1) typedGrid) = [typedRow2; blankItem 3] /\
  timers (handle (ClickRemove 3) typedGrid) =
    [FocusFirst [typedRow1; typedRow2]].
Proof.
  split; [exact typedGrid_distinct|]. split.
  - refine (f_equal (@items Q)
              (@remove_deletes_exactly_one_row Q Exact typedGrid
                 [] typedRow1 [typedRow2; blankItem 3]
                 typedGrid_distinct eq_refl _)).
    discriminate.
  - refine (f_equal (@timers Q)
              (@remove_deletes_exactly_one_row Q Exact typedGrid
                 [typedRow1; typedRow2] (blankItem 3) []
                 typedGrid_distinct eq_refl _)).
    discriminate.
Defined.

End GridFacts.

(** * Cell edits *)

Module EditingFacts.
Import GstInvoice GstEditing NavigatorFacts CalculationFacts.

Section Edits.
Context {num : Type} `{JsNumber num}.

Implicit Types s : State num.

Lemma applyChange_id (c : Change num) (it : Item num) :
  id (applyChange c it) = id it.
Proof. destruct c as [[]|[]]; reflexivity. Qed.

Lemma handleItemChange_ids (rid : Z) (c : Change num) s :
  ids (handleItemChange rid c s) = ids s.
Proof.
  unfold ids, handleItemChange. cbn [items]. rewrite map_map.
  apply map_ext. intros it.
  destruct (id it =? rid)%Z; [apply applyChange_id | reflexivity].
Qed.

Lemma settled_edit (rid : Z) (c : Change num) s :
  settled s -> settled (handleItemChange rid c s).
Proof.
  unfold settled. rewrite handleItemChange_ids. cbn [focusPosition timers
    handleItemChange]. tauto.
Qed.

Lemma settled_act (a : Action num) s :
  settled s -> actionEnabled a s = true -> settled (act a s).
Proof.
  intros HS He. destruct a as [e|rid c]; cbn [act actionEnabled] in *.
  - apply settled_run; assumption.
  - apply settled_edit. exact HS.
Qed.

Lemma settled_actAll (acts : list (Action num)) s :
  settled s -> allActionsEnabled acts s = true -> settled (actAll acts s).
Proof.
  revert s. induction acts as [|a acts IH]; intros s HS He; cbn in *.
  - exact HS.
  - apply andb_true_iff in He. destruct He as [Ha Hrest].
    apply IH; [apply settled_act|]; assumption.
Qed.


End Edits.



(** X15.  Typing again into the same cell overwrites what was typed
    before: only the last value of a cell is kept. *)
Theorem last_edit_of_a_cell_wins :
  forall num (N : JsNumber num) (s : State num) rid (c1 c2 : Change num),
    sameCell c1 c2 = true ->
    handleItemChange rid c2 (handleItemChange rid c1 s) =
    handleItemChange rid c2 s.
Proof.
  intros num N s rid c1 c2 Hsame.
  unfold handleItemChange. cbn [items focusPosition timers]. f_equal.
  rewrite map_map. apply map_ext. intros it.
  destruct (Z.eqb_spec (id it) rid) as [Heq|Hne].
  - rewrite applyChange_id.
    destruct (Z.eqb_spec (id it) rid) as [_|Hne]; [|contradiction].
    destruct c1 as [[] v1|[] v1], c2 as [[] v2|[] v2];
      try discriminate Hsame; reflexivity.
  - destruct (Z.eqb_spec (id it) rid); [contradiction | reflexivity].
Qed.

Lemma last_edit_of_a_cell_wins_witness :
  handleItemChange 1 (SetNumber FQty 7)
    (handleItemChange 1 (SetNumber FQty 3) (@initialState Q Exact)) =
  handleItemChange 1 (SetNumber FQty 7) (@initialState Q Exact).
Proof.
  exact (@last_edit_of_a_cell_wins Q Exact initialState 1%Z
           (SetNumber FQty 3%Q) (SetNumber FQty 7%Q) eq_refl).
Defined.

(** X16.  Edits of two different rows commute. *)
Theorem edits_of_different_rows_commute :
  forall num (N : JsNumber num) (s : State num) r1 r2 (c1 c2 : Change num),
    r1 <> r2 ->
    handleItemChange r1 c1 (handleItemChange r2 c2 s) =
    handleItemChange r2 c2 (handleItemChange r1 c1 s).
Proof.
  intros num N s r1 r2 c1 c2 Hne.
  unfold handleItemChange. cbn [items focusPosition timers]. f_equal.
  rewrite !map_map. apply map_ext. intros it.
  destruct (Z.eqb_spec (id it) r1) as [E1|E1];
    destruct (Z.eqb_spec (id it) r2) as [E2|E2];
    rewrite ?applyChange_id;
    repeat match goal with
      | |- context [(?a =? ?b)%Z] => destruct (Z.eqb_spec a b)
      end; try reflexivity; congruence.
Qed.

Lemma edits_of_different_rows_commute_witness :
  let s := run ClickAdd (@initialState Q Exact) in
  handleItemChange 1 (SetNumber FQty 7) (handleItemChange 2 (SetText FCode "A") s) =
  handleItemChange 2 (SetText FCode "A") (handleItemChange 1 (SetNumber FQty 7) s).
Proof.
  cbn zeta.
  apply (@edits_of_different_rows_commute Q Exact). discriminate.
Defined.

(** X17.  Edits of the text cells and of the MRP cell leave every
    computed amount and every total as it was, in any arithmetic. *)
Theorem text_and_mrp_edits_keep_amounts :
  forall num (N : JsNumber num) (s : State num) rid (c : Change num),
    feedsAmounts c = false ->
    let s' := handleItemChange rid c s in
    map (@netAmount num) (calculatedItems (items s')) =
      map (@netAmount num) (calculatedItems (items s)) /\
    totals (calculatedItems (items s')) = totals (calculatedItems (items s)).
Proof.
  intros num N s rid c Hc s'.
  assert (Hcalc : forall it,
            let it' := if (id it =? rid)%Z then applyChange c it else it in
            grossAmount (calculateItem it') = grossAmount (calculateItem it) /\
            discAmt (calculateItem it') = discAmt (calculateItem it) /\
            gstAmt (calculateItem it') = gstAmt (calculateItem it) /\
            netAmount (calculateItem it') = netAmount (calculateItem it) /\
            orZero (addGst it') = orZero (addGst it) /\
            orZero (advTax it') = orZero (advTax it)).
  { intros it. cbn zeta. destruct (id it =? rid)%Z; [|repeat split].
    destruct c as [[] v|[] v]; try discriminate Hc; repeat split. }
  assert (Hmap : forall (g : CalculatedItem num -> num),
            (forall it,
                g (calculateItem
                     (if (id it =? rid)%Z then applyChange c it else it)) =
                g (calculateItem it)) ->
            map g (calculatedItems (items s')) =
            map g (calculatedItems (items s))).
  { intros g Hg. subst s'. unfold calculatedItems, handleItemChange.
    cbn [items]. rewrite !map_map. apply map_ext. exact Hg. }
  split.
  - apply Hmap. intros it. apply (Hcalc it).
  - unfold totals. rewrite !totals_fold_fields.
    rewrite (Hmap (@grossAmount num)) by (intros it; apply (Hcalc it)).
    rewrite (Hmap (@discAmt num)) by (intros it; apply (Hcalc it)).
    rewrite (Hmap (@gstAmt num)) by (intros it; apply (Hcalc it)).
    rewrite (Hmap (@netAmount num)) by (intros it; apply (Hcalc it)).
    rewrite (Hmap (fun ci => orZero (addGst (item ci))))
      by (intros it; apply (Hcalc it)).
    rewrite (Hmap (fun ci => orZero (advTax (item ci))))
      by (intros it; apply (Hcalc it)).
    reflexivity.
Qed.

Lemma text_and_mrp_edits_keep_amounts_witness :
  let s := handleItemChange 1 (SetNumber FTp 40) (@initialState Q Exact) in
  totals (calculatedItems (items (handleItemChange 1 (SetNumber FMrp 55) s))) =
  totals (calculatedItems (items s)).
Proof.
  cbn zeta.
  apply (@text_and_mrp_edits_keep_amounts Q Exact). reflexivity.
Defined.

End EditingFacts.

(** * Accounting facts in exact arithmetic *)

Module AccountingFacts.
Import GstInvoice GstEditing CalculationFacts.

Local Open Scope Q_scope.

Lemma calculateItem_balanced (it : Item Q) :
  let ci := calculateItem it in
  netAmount ci ==
  grossAmount ci - discAmt ci + gstAmt ci
  + orZero (addGst (item ci)) + orZero (advTax (item ci)).
Proof. cbn. ring. Qed.

Lemma fold_balanced (l : list (Item Q)) (acc : Totals Q) :
  balanced acc -> balanced (fold_left totalsStep (calculatedItems l) acc).
Proof.
  revert acc. induction l as [|it l IH]; intros acc Hacc; cbn [fold_left
    calculatedItems map]; [exact Hacc|].
  apply IH. unfold balanced in *.
  pose proof (calculateItem_balanced it) as Hit. cbn zeta in Hit.
  unfold totalsStep. cbn [gross disc gst totAddGst totAdvTax net add Exact].
  lra.
Qed.

Lemma simple_fold_balanced (l : list (SimpleInvoice.Item Q))
      (acc : SimpleInvoice.Totals Q) :
  SimpleInvoice.total acc ==
    SimpleInvoice.subTotal acc - SimpleInvoice.totDiscount acc ->
  let t := fold_left SimpleInvoice.totalsStep
             (SimpleInvoice.calculatedItems l) acc in
  SimpleInvoice.total t ==
    SimpleInvoice.subTotal t - SimpleInvoice.totDiscount t.
Proof.
  revert acc. induction l as [|it l IH]; intros acc Hacc; cbn [fold_left
    SimpleInvoice.calculatedItems map]; [exact Hacc|].
  apply IH. cbn. lra.
Qed.

(** X18.  Whatever the rows, the net total is the gross total minus the
    discount total plus the GST, additional-GST and advance-tax totals;
    in the plain form the total is the sub-total minus the discounts. *)
Theorem totals_balance :
  (forall l : list (Item Q),
      let t := totals (calculatedItems l) in
      net t == gross t - disc t + gst t + totAddGst t + totAdvTax t) /\
  (forall l : list (SimpleInvoice.Item Q),
      let t := SimpleInvoice.totals (SimpleInvoice.calculatedItems l) in
      SimpleInvoice.total t ==
        SimpleInvoice.subTotal t - SimpleInvoice.totDiscount t).
Proof.
  split.
  - intros l. apply (fold_balanced l). unfold balanced. cbn. lra.
  - intros l. apply (simple_fold_balanced l). cbn. lra.
Qed.

Lemma blank_amounts (n : Z) :
  let ci := calculateItem (blankItem (num := Q) n) in
  grossAmount ci == 0 /\ discAmt ci == 0 /\ gstAmt ci == 0 /\
  netAmount ci == 0 /\
  orZero (addGst (item ci)) == 0 /\ orZero (advTax (item ci)) == 0.
Proof. cbn zeta. repeat split; vm_compute; reflexivity. Qed.

(** X19.  A freshly added row contributes nothing: after [addItem] every
    total has the value it had before. *)
Theorem added_row_adds_nothing :
  forall s : State Q,
    let t := totals (calculatedItems (items s)) in
    let t' := totals (calculatedItems (items (addItem s))) in
    gross t' == gross t /\ disc t' == disc t /\ gst t' == gst t /\
    totAddGst t' == totAddGst t /\ totAdvTax t' == totAdvTax t /\
    net t' == net t.
Proof.
  intros s t t'. subst t t'. unfold addItem. cbn [items].
  unfold totals, calculatedItems. rewrite map_app, fold_left_app.
  cbn [map fold_left].
  set (acc := fold_left totalsStep (map calculateItem (items s)) totalsInit).
  destruct (blank_amounts (maxId (map (@id Q) (items s)) + 1))
    as (Hg & Hd & Ht & Hn & Ha & Hv).
  cbn zeta in Hg, Hd, Ht, Hn, Ha, Hv.
  unfold totalsStep. cbn [gross disc gst totAddGst totAdvTax net add Exact].
  repeat split; lra.
Qed.

Lemma sensible_amounts (it : Item Q) :
  sensibleRow it ->
  let ci := calculateItem it in
  0 <= discAmt ci /\ discAmt ci <= grossAmount ci /\
  0 <= gstAmt ci /\ 0 <= netAmount ci.
Proof.
  intros (Hq & Ht & Hd0 & Hd & Hg & Ha & Hv).
  cbn [calculateItem grossAmount discAmt gstAmt netAmount
       add sub mul div hundred Exact].
  rewrite !orZero_exact.
  assert (Hgross : 0 <= qty it * tp it) by (apply Qmult_le_0_compat; lra).
  set (g := qty it * tp it) in *. clearbody g.
  assert (Hdisc : 0 <= g * discPercent it)
    by (apply Qmult_le_0_compat; lra).
  assert (Hleft : 0 <= g * (100 - discPercent it))
    by (apply Qmult_le_0_compat; lra).
  assert (Htax : g - g * discPercent it / 100
                 == g * (100 - discPercent it) / 100) by field.
  assert (Hgst : 0 <= g * (100 - discPercent it) * gstPercent it)
    by (apply Qmult_le_0_compat; lra).
  rewrite Htax.
  set (k := g * (100 - discPercent it)) in *. clearbody k.
  set (dd := g * discPercent it) in *. clearbody dd.
  assert (Hgst' : k / 100 * gstPercent it == k * gstPercent it / 100)
    by field.
  rewrite Hgst'.
  set (kg := k * gstPercent it) in *. clearbody kg.
  assert (Hk : forall x, 0 <= x -> 0 <= x / 100).
  { intros x Hx. apply Qle_shift_div_l; lra. }
  pose proof (Hk _ Hdisc). pose proof (Hk _ Hleft).
  pose proof (Hk _ (Hk _ Hgst)).
  repeat split; lra.
Qed.

Lemma fold_net_nonneg (l : list (Item Q)) (acc : Totals Q) :
  Forall sensibleRow l -> 0 <= net acc ->
  0 <= net (fold_left totalsStep (calculatedItems l) acc).
Proof.
  intros HF. revert acc.
  induction HF as [|it l Hit HF IH]; intros acc Hacc; cbn [fold_left
    calculatedItems map]; [exact Hacc|].
  apply IH. destruct (sensible_amounts Hit) as (_ & _ & _ & Hn).
  cbn zeta in Hn. unfold totalsStep. cbn [net add Exact]. lra.
Qed.

(** X20.  For a row with non-negative inputs and a discount of at most
    100%, the discount amount lies between 0 and the gross amount and the
    GST and net amounts are not negative; the net total of an invoice
    made of such rows is not negative. *)
Theorem sensible_rows_give_sensible_amounts :
  forall l : list (Item Q),
    Forall sensibleRow l ->
    Forall (fun ci =>
              0 <= discAmt ci /\ discAmt ci <= grossAmount ci /\
              0 <= gstAmt ci /\ 0 <= netAmount ci)
           (calculatedItems l) /\
    0 <= net (totals (calculatedItems l)).
Proof.
  intros l HF. split.
  - unfold calculatedItems. apply Forall_map.
    apply Forall_impl with (P := sensibleRow); [|exact HF].
    intros it Hit. apply (sensible_amounts Hit).
  - apply fold_net_nonneg; [exact HF|]. cbn. lra.
Qed.

Lemma sensible_rows_give_sensible_amounts_witness :
  let l := [gstRow 2 100 0 10 5 0 0; gstRow 1 (1 # 2) 0 100 17 0 3] in
  Forall sensibleRow l /\ 0 <= net (totals (calculatedItems l)).
Proof.
  cbn zeta.
  assert (HF : Forall sensibleRow
                 [gstRow 2 100 0 10 5 0 0; gstRow 1 (1 # 2) 0 100 17 0 3]).
  { repeat constructor; unfold Qle; cbn; lia. }
  split; [exact HF|].
  exact (proj2 (@sensible_rows_give_sensible_amounts _ HF)).
Defined.

(** X21.  The printed bill amount is the whole number nearest to the net
    total, halves going up: it is within half a unit of the net total. *)
Theorem bill_amount_is_nearest_whole :
  forall t : Totals Q,
    net t - (1 # 2) < inject_Z (billAmount t) /\
    inject_Z (billAmount t) <= net t + (1 # 2).
Proof.
  intros t. unfold billAmount, SimpleInvoice.mathRound.
  pose proof (Qfloor_le (net t + (1 # 2))) as Hle.
  pose proof (Qlt_floor (net t + (1 # 2))) as Hlt.
  rewrite inject_Z_plus in Hlt. change (inject_Z 1) with 1 in Hlt.
  split; lra.
Qed.

End AccountingFacts.

(** * Sessions: handlers, edits and timers *)

Module SessionFacts.
Import GstInvoice GstEditing NavigatorFacts GridFacts EditingFacts.

Section Steps.
Context {num : Type} `{JsNumber num}.

Implicit Types s : State num.

(** Letting every pending timer expire, oldest first, is [flushTimers]. *)
Lemma expire_all s :
  stepAll (repeat (@Expire num) (List.length (timers s))) s = flushTimers s.
Proof.
  destruct s as [its fp ts]. revert fp.
  induction ts as [|t ts IH]; intros fp; [reflexivity|].
  exact (IH (runTimer fp t)).
Qed.

Lemma wf_initial : wellFormedGrid (@initialState num _).
Proof.
  unfold wellFormedGrid, ids. cbn. repeat split.
  - repeat constructor. intros [].
  - repeat constructor.
  - discriminate.
  - left. reflexivity.
Qed.

Lemma wf_setFocus (p : FocusPosition) s :
  wellFormedGrid s -> In (field p) fields ->
  wellFormedGrid (setFocusPosition p s).
Proof.
  intros (HN & HP & HE & HF) Hp. unfold wellFormedGrid, ids in *.
  cbn [setFocusPosition items focusPosition]. tauto.
Qed.

Lemma wf_addItem s : wellFormedGrid s -> wellFormedGrid (addItem s).
Proof.
  intros (HN & HP & HE & HF).
  destruct (newId_fresh s HP) as (Hpos & _ & Hnew).
  unfold wellFormedGrid, ids in *. cbn [addItem items focusPosition].
  rewrite map_app. cbn [map blankItem id]. repeat split.
  - apply NoDup_app; [assumption | repeat constructor; intros [] |].
    intros x Hx [<-|[]]. apply Hnew. exact Hx.
  - apply Forall_app. split; [assumption | repeat constructor; assumption].
  - intros E. apply app_eq_nil in E. destruct E as [_ E]. discriminate E.
  - exact HF.
Qed.

Lemma wf_removeItem (rid : Z) s :
  wellFormedGrid s -> wellFormedGrid (removeItem rid s).
Proof.
  intros (HN & HP & HE & HF). unfold removeItem.
  destruct (Z.leb_spec (len (items s)) 1) as [Hlen|Hlen].
  - unfold wellFormedGrid, ids. cbn. repeat split.
    + repeat constructor. intros [].
    + repeat constructor.
    + discriminate.
    + left. reflexivity.
  - destruct (filter_keeps_a_row rid s HN Hlen) as (first & rest & E).
    unfold wellFormedGrid, ids in *. cbn [items focusPosition].
    rewrite ids_filter. repeat split.
    + apply NoDup_filter. exact HN.
    + apply Forall_forall. intros x Hx. apply filter_In in Hx.
      rewrite Forall_forall in HP. apply HP. apply Hx.
    + rewrite E. discriminate.
    + exact HF.
Qed.

Lemma wf_handleKeyDown (key : string) (r : Z) (f : string) s :
  wellFormedGrid s -> In f fields ->
  wellFormedGrid (handleKeyDown key r f s).
Proof.
  intros HW Hf. unfold handleKeyDown.
  destruct (String.eqb key "Enter" || String.eqb key "Tab").
  - destruct (indexOf f fields <? len fields - 1)%Z.
    + destruct (at_ fields (indexOf f fields + 1)) as [next|] eqn:E;
        [|exact HW].
      apply wf_setFocus; [exact HW|]. cbn [field]. eapply at_In. exact E.
    + destruct (findIndex _ (items s) <? len (items s) - 1)%Z.
      * destruct (at_ (items s) _); [|exact HW].
        apply wf_setFocus; [exact HW|]. left. reflexivity.
      * apply wf_addItem. exact HW.
  - destruct (String.eqb key "ArrowUp" || String.eqb key "ArrowDown");
      [|exact HW].
    destruct ((0 <=? _)%Z && _); [|exact HW].
    destruct (at_ (items s) _); [|exact HW].
    apply wf_setFocus; assumption.
Qed.

Lemma wf_handleAction (a : Action num) s :
  wellFormedGrid s -> actionEnabled a s = true ->
  wellFormedGrid (handleAction a s).
Proof.
  intros HW He. destruct a as [[key r f|r f| |rid]|rid c];
    cbn [handleAction handle actionEnabled enabled] in *.
  - apply andb_true_iff in He. destruct He as [_ Hf].
    apply wf_handleKeyDown; [exact HW | apply rendered_in_fields; exact Hf].
  - apply andb_true_iff in He. destruct He as [_ Hf].
    unfold handleFieldFocus. destruct (_ || _); [|exact HW].
    apply wf_setFocus; [exact HW | apply rendered_in_fields; exact Hf].
  - apply wf_addItem. exact HW.
  - apply wf_removeItem. exact HW.
  - destruct HW as (HN & HP & HE & HF). unfold wellFormedGrid.
    rewrite handleItemChange_ids. repeat split; try assumption.
    cbn [handleItemChange items]. intros E. apply map_eq_nil in E.
    apply HE. exact E.
Qed.

Lemma wf_expire s : wellFormedGrid s -> wellFormedGrid (expire s).
Proof.
  intros HW. unfold expire. destruct (timers s) as [|t rest]; [exact HW|].
  destruct HW as (HN & HP & HE & HF). unfold wellFormedGrid, ids in *.
  cbn [items focusPosition]. repeat split; try assumption.
  destruct t as [n|[|first l]]; cbn [runTimer field];
    [left; reflexivity | exact HF | left; reflexivity].
Qed.

Lemma wf_stepAll (sts : list (Step num)) s :
  wellFormedGrid s -> allStepsEnabled sts s = true ->
  wellFormedGrid (stepAll sts s).
Proof.
  revert s. induction sts as [|x sts IH]; intros s HW He; cbn in *.
  - exact HW.
  - apply andb_true_iff in He. destruct He as [Hx Hrest].
    apply IH; [|exact Hrest].
    destruct x as [a|]; cbn [step stepEnabled] in *;
      [apply wf_handleAction | apply wf_expire]; assumption.
Qed.

End Steps.

(** X13.  At every moment of every session, however handlers, cell
    edits and timer callbacks interleave, the row ids are distinct and
    positive, the grid has at least one row, and the focused field is a
    field of the tab order.  (Whether the focused row exists depends on
    the timers: see [focus_names_live_cell].) *)
Theorem grid_well_formed_at_every_step :
  forall num (N : JsNumber num) (sts : list (Step num)),
    allStepsEnabled sts (@initialState num N) = true ->
    let s := stepAll sts (@initialState num N) in
    NoDup (ids s) /\
    Forall (fun i => 0 < i)%Z (ids s) /\
    items s <> [] /\
    In (field (focusPosition s)) fields.
Proof.
  intros num N sts He s. apply (wf_stepAll sts wf_initial He).
Qed.

Lemma grid_well_formed_at_every_step_witness :
  let sts := [Handle (Ui ClickAdd); Handle (Edit 2 (SetNumber FTp 40));
              Handle (Ui (ClickRemove 1)); Expire;
              Handle (Ui (KeyDown "Tab" 2 "advTax")); Expire]%Q in
  let s := stepAll sts (@initialState Q Exact) in
  allStepsEnabled sts (@initialState Q Exact) = true /\
  NoDup (ids s) /\ items s <> [].
Proof.
  cbn zeta. split; [vm_compute; reflexivity|].
  match goal with
  | |- NoDup (ids (stepAll ?sts _)) /\ _ =>
      destruct (@grid_well_formed_at_every_step Q Exact sts)
        as (HN & _ & HE & _)
  end; [vm_compute; reflexivity|].
  split; assumption.
Defined.

(** C2 (amended).  After any sequence of add-row, remove-row, key and
    focus operations and cell edits from the initial state, in which the
    zero-delay timers an operation sets run before the next operation is
    handled, no timer is pending and the focus position names a row id of
    the current collection and a field of the tab order. *)
Theorem focus_names_live_cell :
  forall num (N : JsNumber num) (acts : list (Action num)),
    allActionsEnabled acts (@initialState num N) = true ->
    let s := actAll acts (@initialState num N) in
    timers s = [] /\
    In (rowId (focusPosition s)) (ids s) /\
    In (field (focusPosition s)) fields.
Proof.
  intros num N acts He s.
  destruct (settled_actAll acts settled_initial He) as (_ & _ & HR & HF & HT).
  repeat split; assumption.
Qed.

Lemma focus_names_live_cell_witness :
  let acts := [Ui (KeyDown "Enter" 1 "advTax"); Ui ClickAdd;
               Edit 2 (SetText FCode "P-17");
               Ui (KeyDown "ArrowUp" 3 "qty"); Ui (ClickRemove 2);
               Edit 3 (SetNumber FQty 5); Ui (FieldFocus 3 "mrp");
               Ui (ClickRemove 1); Ui (ClickRemove 3)]%Q in
  let s := actAll acts (@initialState Q Exact) in
  allActionsEnabled acts (@initialState Q Exact) = true /\
  In (rowId (focusPosition s)) (ids s) /\
  In (field (focusPosition s)) fields.
Proof.
  cbn zeta. split; [vm_compute; reflexivity|].
  match goal with
  | |- In _ (ids (actAll ?acts _)) /\ _ =>
      destruct (@focus_names_live_cell Q Exact acts) as (_ & HR & HF)
  end; [vm_compute; reflexivity|].
  split; assumption.
Defined.

(** C2, as stated, fails.  With rows 1, 2, 3 and the focus on row 2,
    [removeItem(2)] returns with the focus position still on row 2, which
    is gone; if [removeItem(1)] is handled before the timer runs, the
    timer then puts the focus on row 1, which is gone too, and nothing is
    left to correct it. *)
Lemma focus_can_name_a_removed_row :
  let sts := [Handle (Ui ClickAdd); Expire; Handle (Ui ClickAdd); Expire;
              Handle (Ui (FieldFocus 2 "code"));
              Handle (Ui (ClickRemove 2))] in
  let back := [Handle (Ui (ClickRemove 1)); Expire] in
  let mid := stepAll sts (@initialState Q Exact) in
  let s := stepAll back mid in
  allStepsEnabled (sts ++ back) (@initialState Q Exact) = true /\
  (ids mid = [1; 3]%Z /\ rowId (focusPosition mid) = 2%Z) /\
  (ids s = [3%Z] /\ focusPosition s = {| rowId := 1; field := "code" |} /\
   timers s = [] /\ ~ In (rowId (focusPosition s)) (ids s)).
Proof.
  cbn zeta. repeat split; try (vm_compute; reflexivity).
  vm_compute. intros [E|[]]. discriminate E.
Qed.

Section Removal.
Context {num : Type} `{JsNumber num}.

Implicit Types s : State num.

Lemma flush_last_timer s (t : Timer num) :
  focusPosition
    (flushTimers {| items := items s; focusPosition := focusPosition s;
                    timers := timers s ++ [t] |}) =
  runTimer (fold_left runTimer (timers s) (focusPosition s)) t.
Proof. cbn. rewrite fold_left_app. reflexivity. Qed.

End Removal.

(** C4.  In every state whose row ids are distinct, whatever the rows
    hold and whatever timers are pending, removing a row never leaves the
    collection empty.  With other rows present, exactly the removed row
    is deleted; if it was the focused one, the focus is on the first
    field of the first remaining row once the timers have run, otherwise
    the handler leaves the focus alone.  A sole row is replaced by one
    blank row, focused at its first field at once. *)
Theorem removal_never_empties :
  forall num (N : JsNumber num) (s : State num) (rid : Z),
    NoDup (ids s) ->
    let mid := handle (ClickRemove rid) s in
    let s' := flushTimers mid in
    items mid <> [] /\
    items s' = items mid /\
    ((len (items s) <= 1)%Z ->
     items mid = [blankItem 1] /\
     focusPosition mid = {| rowId := 1; field := "code" |}) /\
    (forall before it after,
        items s = before ++ it :: after -> id it = rid ->
        before ++ after <> [] ->
        items mid = before ++ after /\
        (rowId (focusPosition s) = rid ->
         exists first rest,
           before ++ after = first :: rest /\
           focusPosition s' = {| rowId := id first; field := "code" |}) /\
        (rowId (focusPosition s) <> rid ->
         focusPosition mid = focusPosition s)) /\
    ((1 < len (items s))%Z -> ~ In rid (ids s) -> items mid = items s) /\
    hd_error fields = Some "code"%string.
Proof.
  intros num N s rid HN mid s'.
  split; [|split; [reflexivity|split; [|split; [|split; [|reflexivity]]]]].
  - subst mid. unfold handle, removeItem.
    destruct (Z.leb_spec (len (items s)) 1) as [Hlen|Hlen]; [discriminate|].
    destruct (filter_keeps_a_row rid s HN Hlen) as (first & rest & E).
    cbn [items]. rewrite E. discriminate.
  - intros Hlen. subst mid. unfold handle, removeItem.
    destruct (Z.leb_spec (len (items s)) 1); [|lia]. split; reflexivity.
  - intros before it after E Hid Hne. subst rid.
    assert (Hpos : (0 < len (before ++ after))%Z).
    { destruct (before ++ after) as [|x rest]; [congruence|].
      rewrite len_cons. pose proof (len_nonneg rest). lia. }
    rewrite len_app in Hpos.
    assert (Hmid : mid =
              {| items := before ++ after;
                 focusPosition := focusPosition s;
                 timers := timers s ++
                   (if (rowId (focusPosition s) =? id it)%Z
                    then [FocusFirst (before ++ after)] else []) |}).
    { subst mid. unfold handle, removeItem.
      destruct (Z.leb_spec (len (items s)) 1) as [Hlen|Hlen].
      { rewrite E, len_app, len_cons in Hlen. lia. }
      rewrite E, filter_one_row
        by (unfold ids in HN; rewrite E in HN; exact HN).
      reflexivity. }
    split; [rewrite Hmid; reflexivity|]. split.
    + intros Hfoc. destruct (before ++ after) as [|first rest] eqn:Erem;
        [congruence|].
      exists first, rest. split; [reflexivity|].
      subst s'. rewrite Hmid. apply Z.eqb_eq in Hfoc. rewrite Hfoc.
      cbn. rewrite fold_left_app. reflexivity.
    + intros Hfoc. rewrite Hmid. reflexivity.
  - intros Hlen Hrid. subst mid. unfold handle, removeItem.
    destruct (Z.leb_spec (len (items s)) 1); [lia|].
    cbn [items]. apply filter_other_ids. exact Hrid.
Qed.

Lemma removal_never_empties_witness :
  NoDup (ids typedGrid) /\
  items (handle (ClickRemove 3) typedGrid) = [typedRow1; typedRow2] /\
  focusPosition (flushTimers (handle (ClickRemove 3) typedGrid)) =
    {| rowId := 1; field := "code" |}.
Proof.
  split; [exact typedGrid_distinct|].
  destruct (@removal_never_empties Q Exact typedGrid 3%Z typedGrid_distinct)
    as (_ & _ & _ & Hrows & _).
  destruct (Hrows [typedRow1; typedRow2] (blankItem 3) [] eq_refl eq_refl)
    as (Hitems & Hfocused & _); [discriminate|].
  split; [exact Hitems|].
  destruct (Hfocused eq_refl) as (first & rest & E & Hfoc).
  injection E as <- <-. exact Hfoc.
Defined.

Section Keyboard.
Context {num : Type} `{JsNumber num}.

Implicit Types s : State num.

Lemma advance_in_gstPercent (key : string) (r : Z) s :
  key = "Enter"%string \/ key = "Tab"%string ->
  handleKeyDown key r "gstPercent" s =
  setFocusPosition {| rowId := r; field := "addGst" |} s.
Proof. intros [->| ->]; reflexivity. Qed.

Lemma press_in_gstPercent (key : string) (r : Z) s :
  key = "Enter"%string \/ key = "Tab"%string ->
  hasRow r s = true -> timers s = [] ->
  pressAdvance key
    {| state := s; active := Some {| rowId := r; field := "gstPercent" |} |} =
  {| state := setFocusPosition {| rowId := r; field := "addGst" |} s;
     active := Some {| rowId := r; field := "gstPercent" |} |}.
Proof.
  intros Hkey Hr HT. unfold pressAdvance. cbn [active state rowId field].
  unfold run, handle. rewrite (advance_in_gstPercent r s Hkey).
  rewrite flushTimers_idle by exact HT.
  unfold focusEffect, hasInput.
  cbn [focusPosition setFocusPosition rowId field].
  change (hasRow r (setFocusPosition _ s)) with (hasRow r s).
  rewrite Hr. cbn. reflexivity.
Qed.

End Keyboard.

(** C3 (what the page does where the statement fails).  With the
    keyboard in the GST cell of any row, Enter or Tab sets the focus
    position to the additional-GST field, for which the row has no cell;
    the keyboard stays in the GST cell, so every further Enter or Tab is
    handled there again: the focus position never reaches the
    advance-tax field and no row is ever appended. *)
Theorem advance_stops_before_addGst :
  forall num (N : JsNumber num) (s : State num) (r : Z) (key : string)
         (n : nat),
    key = "Enter"%string \/ key = "Tab"%string ->
    hasRow r s = true ->
    timers s = [] ->
    let gst := {| rowId := r; field := "gstPercent" |} in
    let addGst := {| rowId := r; field := "addGst" |} in
    hasInput addGst s = false /\
    pressAdvanceTimes (S n) key {| state := s; active := Some gst |} =
    {| state := setFocusPosition addGst s; active := Some gst |}.
Proof.
  intros num N s r key n Hkey Hr HT gst addGst. split.
  { unfold hasInput. cbn. apply andb_false_r. }
  revert s Hr HT. induction n as [|n IH]; intros s Hr HT.
  - cbn [pressAdvanceTimes]. apply press_in_gstPercent; assumption.
  - change (pressAdvanceTimes (S (S n)) key ?pg)
      with (pressAdvanceTimes (S n) key (pressAdvance key pg)).
    subst gst. rewrite press_in_gstPercent by assumption.
    rewrite IH by assumption. reflexivity.
Qed.

Lemma advance_stops_before_addGst_witness :
  let pg := {| state := @initialState Q Exact;
               active := Some {| rowId := 1; field := "gstPercent" |} |} in
  focusPosition (state (pressAdvanceTimes 2 "Enter" pg)) =
    {| rowId := 1; field := "addGst" |} /\
  active (pressAdvanceTimes 2 "Enter" pg) =
    Some {| rowId := 1; field := "gstPercent" |} /\
  items (state (pressAdvanceTimes 2 "Enter" pg)) = [blankItem 1].
Proof.
  cbn zeta.
  rewrite (proj2 (@advance_stops_before_addGst Q Exact initialState 1%Z
                    "Enter"%string 1%nat (or_introl eq_refl) eq_refl eq_refl)).
  repeat split.
Defined.

(** X22.  In every state whose row ids are distinct, whatever the rows
    hold and whatever timers are pending, [handleKeyDown] called with
    Enter or Tab for the cell (r, f) sets the focus position to the next
    field of the row; for the last field, to the first field of the row
    below; and for the last field of the last row it appends a blank row
    and sets a timer, after which the focus position is on the new row's
    first field. *)
Theorem advance_transition :
  forall num (N : JsNumber num) (s : State num) (key : string) (r : Z)
         (f : string),
    NoDup (ids s) ->
    key = "Enter"%string \/ key = "Tab"%string ->
    let mid := handle (KeyDown key r f) s in
    (forall pre g post,
        fields = pre ++ f :: g :: post ->
        mid = setFocusPosition {| rowId := r; field := g |} s) /\
    (forall pre,
        fields = pre ++ [f] ->
        (forall before it nxt after,
            items s = before ++ it :: nxt :: after -> id it = r ->
            mid = setFocusPosition {| rowId := id nxt; field := "code" |} s) /\
        (forall before it,
            items s = before ++ [it] -> id it = r ->
            let newId := (maxId (ids s) + 1)%Z in
            mid = {| items := items s ++ [blankItem newId];
                     focusPosition := focusPosition s;
                     timers := timers s ++ [FocusNew newId] |} /\
            focusPosition (flushTimers mid) =
              {| rowId := newId; field := "code" |} /\
            In newId (ids mid) /\ ~ In newId (ids s))).
Proof.
  intros num N s key r f HN Hkey mid.
  assert (Hk : String.eqb key "Enter" || String.eqb key "Tab" = true)
    by (destruct Hkey; subst key; reflexivity).
  assert (Hfirst : forall pre post, fields = pre ++ f :: post ->
            indexOf f fields = len pre).
  { intros pre post E. unfold indexOf. rewrite E.
    apply findIndex_first; [|apply String.eqb_refl].
    intros y Hy. apply String.eqb_neq. intros ->.
    pose proof NoDup_fields as ND. rewrite E in ND.
    apply NoDup_remove_2 in ND. apply ND. apply in_or_app. left. exact Hy. }
  split.
  - intros pre g post E.
    subst mid. unfold handle, handleKeyDown. rewrite Hk.
    rewrite (Hfirst pre (g :: post) E).
    assert (Hlen : (len pre <? len fields - 1)%Z = true).
    { apply Z.ltb_lt. rewrite E, len_app, !len_cons.
      pose proof (len_nonneg post). lia. }
    assert (Hat : at_ fields (len pre + 1) = Some g)
      by (rewrite E; apply at_app_next).
    rewrite Hlen, Hat. reflexivity.
  - intros pre E.
    assert (Hlen : (indexOf f fields <? len fields - 1)%Z = false).
    { rewrite (Hfirst pre [] E). apply Z.ltb_ge.
      rewrite E, len_app, len_cons. cbn. lia. }
    split.
    + intros before it nxt after Eit Hid. subst r.
      subst mid. unfold handle, handleKeyDown. rewrite Hk, Hlen.
      rewrite findIndex_row with (before := before) (it := it)
        (after := nxt :: after) by assumption.
      assert (Hlt : (len before <? len (items s) - 1)%Z = true).
      { apply Z.ltb_lt. rewrite Eit, len_app, !len_cons.
        pose proof (len_nonneg after). lia. }
      assert (Hat : at_ (items s) (len before + 1) = Some nxt)
        by (rewrite Eit; apply at_app_next).
      rewrite Hlt, Hat. reflexivity.
    + intros before it Eit Hid newId. subst r.
      assert (Hmid : mid = addItem s).
      { subst mid. unfold handle, handleKeyDown. rewrite Hk, Hlen.
        rewrite findIndex_row with (before := before) (it := it)
          (after := []) by assumption.
        assert (Hlt : (len before <? len (items s) - 1)%Z = false).
        { apply Z.ltb_ge. rewrite Eit, len_app, len_cons. cbn. lia. }
        rewrite Hlt. reflexivity. }
      rewrite Hmid. unfold addItem. fold (ids s). fold newId.
      split; [reflexivity|]. split.
      { cbn. rewrite fold_left_app. reflexivity. }
      split.
      { unfold ids. cbn [items]. rewrite map_app. apply in_or_app. right.
        left. reflexivity. }
      intros Hin. apply maxId_ge in Hin. subst newId. lia.
Qed.

Lemma advance_transition_witness :
  NoDup (ids typedGrid) /\
  handle (KeyDown "Enter" 1 "advTax") typedGrid =
    setFocusPosition {| rowId := 2; field := "code" |} typedGrid /\
  focusPosition (flushTimers (handle (KeyDown "Enter" 3 "advTax") typedGrid)) =
    {| rowId := 4; field := "code" |}.
Proof.
  split; [exact typedGrid_distinct|].
  destruct (@advance_transition Q Exact typedGrid "Enter"%string 1%Z
              "advTax"%string typedGrid_distinct (or_introl eq_refl))
    as (_ & Hlast1).
  destruct (@advance_transition Q Exact typedGrid "Enter"%string 3%Z
              "advTax"%string typedGrid_distinct (or_introl eq_refl))
    as (_ & Hlast3).
  split.
  - exact (proj1 (Hlast1 (firstn 10 fields) eq_refl)
             [] typedRow1 typedRow2 [blankItem 3] eq_refl eq_refl).
  - exact (proj1 (proj2 (proj2 (Hlast3 (firstn 10 fields) eq_refl)
                    [typedRow1; typedRow2] (blankItem 3) eq_refl eq_refl))).
Defined.

End SessionFacts.
